(** * trail-map: SRTM tile conversion

    A shallow embedding of the two conversion scripts of
    [web/geotiff_data]:

    - [hgt_to_geotiff.py]: tile identifier to geographic bounds, decoding
      of the big-endian sample grid, north-up row order, affine transform;
    - [dem_to_heightmap.py]: nodata-aware min/max scan and linear
      quantization of the samples to 8 bits.

    Python integers are [Z]; NumPy [int16] values are [Z] with the
    wrap-around of the 16-bit arithmetic written out; Python and NumPy
    floats are IEEE 754 binary64 numbers, computed with the Standard
    Library's [SpecFloat] at precision 53; strings are [string], with
    characters of code points below 256; the byte
    buffer of a tile is a [list byte]; a two-dimensional array is the list
    of its rows.  An exception that ends a conversion is a value of
    [error].

    The properties follow the four components: tile identifiers (with
    the integer literals that [int()] accepts), the sample grid, the
    affine transform, the heightmap.  The next part bounds the rounding
    of the [float64] division and product; it gives the transform of
    every grid and shows that, on a range that fits [int16], the
    quantization is the integer part of the exact quotient.  The further properties cover the path
    of the tile file, the conversion as a whole and the two scripts in a
    row. *)

From Stdlib Require Import ZArith Bool Lia Ascii String List.
From Stdlib Require Import Strings.Byte.
From Stdlib Require Import Floats.SpecFloat.
Import ListNotations.

Open Scope Z_scope.

(** ** Failures

    The scripts raise no exception of their own: a conversion fails where
    a Python or NumPy primitive raises.  Each raising site is one error
    kind of the design. *)

Inductive error : Type :=
| MalformedIdentifier
    (* [IndexError] of [filename[0]] and [filename[3]];
       [ValueError] of [int(filename[1:3])] and [int(filename[4:7])] *)
| TruncatedInput
    (* [ValueError] of [data.reshape((nrows, ncols))] *)
| EmptyValidRange
    (* [ValueError] of [valid_data.min()] on a zero-size array *)
| InvalidDimensions.
    (* [ZeroDivisionError] of [/ ncols] and [/ nrows]; the script's
       dimensions are the constant 3601, so it never raises it *)

Definition result (A : Type) : Type := (error + A)%type.

Definition ret {A} (a : A) : result A := inr a.
Definition raise {A} (e : error) : result A := inl e.

Definition bind {A B} (m : result A) (k : A -> result B) : result B :=
  match m with
  | inl e => inl e
  | inr a => k a
  end.

Notation "x <- m ;; k" := (bind m (fun x => k))
  (at level 61, m at next level, right associativity).

Definition succeeds {A} (m : result A) : Prop := exists a, m = inr a.

(** ** Python primitives on strings *)

Module Py.

Definition code (c : ascii) : N := N_of_ascii c.

(** A [string] is a Python [str] whose characters are code points below
    256; [code] is the code point.

    The characters [int()] skips around a literal: tab, line feed,
    vertical tab, form feed, carriage return and space, and, outside
    ASCII, the two white space characters below 256, U+0085 (next line)
    and U+00A0 (no-break space).  The separators U+001C to U+001F are
    white space for [str.strip] but not for [int()].  Below 256 the
    decimal digits are the ASCII digits. *)
Definition is_space (c : ascii) : bool :=
  ((9 <=? code c) && (code c <=? 13) || (code c =? 32)
   || (code c =? 133) || (code c =? 160))%N.

Definition is_digit (c : ascii) : bool :=
  ((48 <=? code c) && (code c <=? 57))%N.

Definition digit_value (c : ascii) : Z := Z.of_N (code c) - 48.

Fixpoint lstrip (s : string) : string :=
  match s with
  | String c s' => if is_space c then lstrip s' else s
  | EmptyString => s
  end.

Fixpoint all_space (s : string) : bool :=
  match s with
  | String c s' => is_space c && all_space s'
  | EmptyString => true
  end.

(** The digit scan of a base 10 literal: digits, with single underscores
    between them.  [prev] says that the last character read was an
    underscore.  The scan stops at the first other character and returns
    the value read and the rest of the string. *)
Fixpoint scan_digits (s : string) (acc : Z) (prev : bool)
  : option (Z * string) :=
  match s with
  | String c s' =>
      if is_digit c then scan_digits s' (10 * acc + digit_value c) false
      else if Ascii.eqb c "_" then
             if prev then None else scan_digits s' acc true
           else if prev then None else Some (acc, s)
  | EmptyString => if prev then None else Some (acc, s)
  end.

(** The literal after the spaces and the sign: a digit scan that starts
    with a digit, then spaces, and nothing else. *)
Definition int_digits (neg : bool) (s : string) : option Z :=
  match s with
  | String c _ =>
      if is_digit c then
        match scan_digits s 0 false with
        | Some (v, rest) =>
            if all_space rest then Some (if neg then - v else v) else None
        | None => None
        end
      else None
  | EmptyString => None
  end.

(** [int(s)] for a [str]: optional spaces, an optional sign, the
    literal.  [None] is [ValueError]. *)
Definition int (s : string) : option Z :=
  match lstrip s with
  | String c r =>
      if Ascii.eqb c "-" then int_digits true r
      else if Ascii.eqb c "+" then int_digits false r
      else int_digits false (String c r)
  | EmptyString => None
  end.

(** [s[i]]: [None] is [IndexError]. *)
Definition index (s : string) (i : nat) : option ascii := String.get i s.

(** [s[i:j]] for [0 <= i <= j]: a slice never fails, it is cut at the
    end of the string. *)
Definition slice (s : string) (i j : nat) : string :=
  String.substring i (j - i) s.

(** [c in s]. *)
Fixpoint contains (c : ascii) (s : string) : bool :=
  match s with
  | String a s' => Ascii.eqb a c || contains c s'
  | EmptyString => false
  end.

(** [s.split(sep)] for a separator of one character: the pieces between
    the separators, as a first piece and the list of the others (the
    result is never the empty list). *)
Fixpoint split_pieces (sep : ascii) (s : string) : string * list string :=
  match s with
  | EmptyString => (EmptyString, [])
  | String c s' =>
      let '(p, ps) := split_pieces sep s' in
      if Ascii.eqb c sep then (EmptyString, p :: ps) else (String c p, ps)
  end.

Definition split (sep : ascii) (s : string) : list string :=
  let '(p, ps) := split_pieces sep s in p :: ps.

(** [l[-1]]: [None] is [IndexError]. *)
Definition last_item {A} (l : list A) : option A :=
  match l with
  | [] => None
  | x :: l' => Some (List.last l' x)
  end.

(** [s.replace(old, new)] for a non-empty [old]: the occurrences of
    [old] are found from left to right and do not overlap.  [skip] counts
    the characters of an occurrence that are still to be passed over. *)
Fixpoint replace_from (old new : string) (skip : nat) (s : string) : string :=
  match s with
  | EmptyString => EmptyString
  | String c s' =>
      match skip with
      | S k => replace_from old new k s'
      | O =>
          if String.prefix old s
          then String.append new
                 (replace_from old new (String.length old - 1) s')
          else String c (replace_from old new 0 s')
      end
  end.

Definition replace (old new s : string) : string := replace_from old new 0 s.

End Py.

(** ** hgt_to_geotiff.py, lines 18-37: bounds of a tile identifier *)

Record GeoBounds : Type := mkBounds {
  west : Z;
  south : Z;
  east : Z;
  north : Z
}.

Definition lift {A} (e : error) (o : option A) : result A :=
  match o with
  | Some a => ret a
  | None => raise e
  end.

(** hgt_to_geotiff.py, line 16: the tile identifier is the last
    component of the path with every [.hgt] in it removed.  A split is
    never empty, so the indexing cannot fail; the empty string stands for
    the [IndexError] that cannot occur. *)
Definition filename_of (hgt_file : string) : string :=
  match Py.last_item (Py.split "/" hgt_file) with
  | Some name => Py.replace ".hgt" "" name
  | None => EmptyString
  end.

(** [filename] is the tile identifier, the file name without its
    directory and its [.hgt] suffix. *)
Definition resolve_bounds (filename : string) : result GeoBounds :=
  lat_dir <- lift MalformedIdentifier (Py.index filename 0) ;;
  lat_val <- lift MalformedIdentifier (Py.int (Py.slice filename 1 3)) ;;
  lon_dir <- lift MalformedIdentifier (Py.index filename 3) ;;
  lon_val <- lift MalformedIdentifier (Py.int (Py.slice filename 4 7)) ;;
  let '(south, north) :=
    if Ascii.eqb lat_dir "S" then (- lat_val, - lat_val + 1)
    else (lat_val, lat_val + 1) in
  let '(west, east) :=
    if Ascii.eqb lon_dir "W" then (- lon_val, - lon_val + 1)
    else (lon_val, lon_val + 1) in
  ret (mkBounds west south east north).

(** The identifier pattern of the design, [[N|S]<2 digits>[E|W]<3 digits>],
    and the box it names, written from the design's words. *)
Definition tile_pattern (s : string) : bool :=
  match s with
  | String h1 (String d1 (String d2 (String h2
      (String d3 (String d4 (String d5 EmptyString)))))) =>
      (Ascii.eqb h1 "N" || Ascii.eqb h1 "S")
      && Py.is_digit d1 && Py.is_digit d2
      && (Ascii.eqb h2 "E" || Ascii.eqb h2 "W")
      && Py.is_digit d3 && Py.is_digit d4 && Py.is_digit d5
  | _ => false
  end.

Definition pattern_box (s : string) : GeoBounds :=
  match s with
  | String h1 (String d1 (String d2 (String h2
      (String d3 (String d4 (String d5 _)))))) =>
      let lat := 10 * Py.digit_value d1 + Py.digit_value d2 in
      let lon := 100 * Py.digit_value d3 + 10 * Py.digit_value d4
                 + Py.digit_value d5 in
      let s := if Ascii.eqb h1 "S" then - lat else lat in
      let w := if Ascii.eqb h2 "W" then - lon else lon in
      mkBounds w s (w + 1) (s + 1)
  | _ => mkBounds 0 0 0 0
  end.

(** ** The integer literals, in words

    What [int()] accepts, written from the words of Python's reference
    and not from the scan of [Py.int], to compare the two: decimal digits
    with single underscores allowed between them, after an optional sign
    [+] or [-] with no space in between, the whole surrounded by optional
    white space.  The white space characters are listed by code point;
    the value of a digit is its place in the string of the ten digits. *)
Definition white_space (c : ascii) : bool :=
  existsb (N.eqb (N_of_ascii c)) [9; 10; 11; 12; 13; 32; 133; 160]%N.

Definition decimal_digit (c : ascii) : option Z :=
  option_map Z.of_nat (String.index 0 (String c EmptyString) "0123456789").

Inductive spaces : string -> Prop :=
| spaces_nil : spaces EmptyString
| spaces_cons (c : ascii) (s : string) :
    white_space c = true -> spaces s -> spaces (String c s).

(** [digits s n]: the digit string [s] denotes the number [n]. *)
Inductive digits : string -> Z -> Prop :=
| digits_one (c : ascii) (d : Z) :
    decimal_digit c = Some d -> digits (String c EmptyString) d
| digits_next (s : string) (n : Z) (c : ascii) (d : Z) :
    digits s n -> decimal_digit c = Some d ->
    digits (s ++ String c EmptyString) (10 * n + d)
| digits_under (s : string) (n : Z) (c : ascii) (d : Z) :
    digits s n -> decimal_digit c = Some d ->
    digits (s ++ String "_" (String c EmptyString)) (10 * n + d).

(** [int_literal s v]: the string [s] is an integer literal of value
    [v]. *)
Inductive int_literal : string -> Z -> Prop :=
| literal_plain (l s r : string) (n : Z) :
    spaces l -> digits s n -> spaces r -> int_literal (l ++ s ++ r) n
| literal_plus (l s r : string) (n : Z) :
    spaces l -> digits s n -> spaces r ->
    int_literal (l ++ String "+" (s ++ r)) n
| literal_minus (l s r : string) (n : Z) :
    spaces l -> digits s n -> spaces r ->
    int_literal (l ++ String "-" (s ++ r)) (- n).


(** ** IEEE 754 binary64

    Python's [float] and NumPy's [float64].  The operations round to
    nearest, ties to even. *)

Module F64.

Definition float64 : Type := spec_float.

Definition prec : Z := 53.
Definition emax : Z := 1024.

(** Conversion of an integer: exact below [2^53] in magnitude. *)
Definition of_Z (z : Z) : float64 := binary_normalize prec emax z 0 false.

Definition add : float64 -> float64 -> float64 := SFadd prec emax.
Definition sub : float64 -> float64 -> float64 := SFsub prec emax.
Definition mul : float64 -> float64 -> float64 := SFmul prec emax.
Definition div : float64 -> float64 -> float64 := SFdiv prec emax.

(** The integer part of a finite number (rounding toward zero); [None]
    for NaN and the infinities. *)
Definition trunc (x : float64) : option Z :=
  match x with
  | S754_zero _ => Some 0
  | S754_finite s m e =>
      let a := match e with
               | Zneg p => Z.shiftr (Zpos m) (Zpos p)
               | _ => Z.shiftl (Zpos m) e
               end in
      Some (if s then - a else a)
  | S754_infinity _ | S754_nan => None
  end.

(** Equality of representations: unlike the IEEE comparison it
    separates the two zeros and equates NaN with itself. *)
Definition same (x y : float64) : bool :=
  match x, y with
  | S754_zero a, S754_zero b => Bool.eqb a b
  | S754_infinity a, S754_infinity b => Bool.eqb a b
  | S754_nan, S754_nan => true
  | S754_finite a m e, S754_finite b n f =>
      Bool.eqb a b && Pos.eqb m n && Z.eqb e f
  | _, _ => false
  end.

End F64.

(** ** NumPy primitives *)

Module Np.

(** A value of dtype [int16]: arithmetic on the dtype wraps around. *)
Definition int16 (z : Z) : Z := (z + 32768) mod 65536 - 32768.

Definition is_int16 (z : Z) : Prop := -32768 <= z <= 32767.

(** One item of dtype ['>i2']: two bytes, the high one first. *)
Definition be_i2 (hi lo : byte) : Z :=
  int16 (256 * Z.of_N (Byte.to_N hi) + Z.of_N (Byte.to_N lo)).

(** [np.fromfile(f, dtype='>i2')]: the items of the whole file, in file
    order.  The item count is the file size divided by the item size,
    so a trailing odd byte is not read. *)
Fixpoint fromfile_be_i2 (buf : list byte) : list Z :=
  match buf with
  | hi :: lo :: rest => be_i2 hi lo :: fromfile_be_i2 rest
  | _ => []
  end.

Fixpoint rows_of {A} (nrows ncols : nat) (data : list A) : list (list A) :=
  match nrows with
  | O => []
  | S k => firstn ncols data :: rows_of k ncols (skipn ncols data)
  end.

(** [data.reshape((nrows, ncols))]: row-major; raises [ValueError]
    unless the array has [nrows * ncols] items. *)
Definition reshape (e : error) (data : list Z) (nrows ncols : nat)
  : result (list (list Z)) :=
  if Z.of_nat (List.length data) =? Z.of_nat nrows * Z.of_nat ncols
  then ret (rows_of nrows ncols data)
  else raise e.

(** [np.flipud]: the rows in reverse order. *)
Definition flipud {A} (a : list (list A)) : list (list A) := rev a.

Definition astype_int16 (a : list (list Z)) : list (list Z) :=
  map (map int16) a.

(** [a != v], elementwise. *)
Definition ne (a : list (list Z)) (v : Z) : list (list bool) :=
  map (map (fun x => negb (x =? v))) a.

Fixpoint compress {A} (m : list bool) (l : list A) : list A :=
  match m, l with
  | b :: m', x :: l' => if b then x :: compress m' l' else compress m' l'
  | _, _ => []
  end.

(** [a[mask]]: the items under a true mask entry, in row-major order. *)
Definition getmask {A} (a : list (list A)) (mask : list (list bool))
  : list A :=
  compress (List.concat mask) (List.concat a).

(** One row of [a[mask] = vals]: returns the row and the values left.
    NumPy raises when the number of values differs from the number of
    true entries; the script assigns exactly as many values as it
    selected with the same mask. *)
Fixpoint setmask_row (m : list bool) (row vals : list Z)
  : list Z * list Z :=
  match m, row with
  | b :: m', x :: row' =>
      if b then
        match vals with
        | v :: vals' =>
            let '(r, rest) := setmask_row m' row' vals' in (v :: r, rest)
        | [] =>
            let '(r, rest) := setmask_row m' row' [] in (x :: r, rest)
        end
      else let '(r, rest) := setmask_row m' row' vals in (x :: r, rest)
  | _, _ => (row, vals)
  end.

(** [a[mask] = vals]. *)
Fixpoint setmask (mask : list (list bool)) (a : list (list Z))
  (vals : list Z) : list (list Z) :=
  match mask, a with
  | m :: mask', row :: a' =>
      let '(r, rest) := setmask_row m row vals in
      r :: setmask mask' a' rest
  | _, _ => a
  end.

(** [a.min()] and [a.max()] of a flat array: [None] is the [ValueError]
    of a reduction over a zero-size array. *)
Definition amin (l : list Z) : option Z :=
  match l with
  | [] => None
  | x :: l' => Some (fold_left Z.min l' x)
  end.

Definition amax (l : list Z) : option Z :=
  match l with
  | [] => None
  | x :: l' => Some (fold_left Z.max l' x)
  end.

Definition zeros_like (a : list (list Z)) : list (list Z) :=
  map (map (fun _ => 0)) a.

(** [x.astype(np.uint8)] of a [float64]: the C conversion of a double to
    an unsigned 8-bit integer.  A number whose integer part lies in
    0..255 converts to that integer part.  For every other number C
    leaves the result open; NumPy's builds for x86-64 keep the low byte
    of the truncating conversion to a 32-bit integer, which answers
    [0x80000000] (low byte 0) for NaN, an infinity and a number beyond
    32 bits. *)
Definition astype_uint8 (x : F64.float64) : Z :=
  match F64.trunc x with
  | Some t =>
      if (- 2 ^ 31 <=? t) && (t <? 2 ^ 31) then t mod 256 else 0
  | None => 0
  end.

End Np.

(** ** hgt_to_geotiff.py, lines 39-54: the sample grid *)

Definition nrows : nat := 3601.
Definition ncols : nat := 3601.

(** The decoding for a grid of [nrows] by [ncols] samples; the script's
    dimensions are the constants above. *)
Definition read_elevation (nrows ncols : nat) (file : list byte)
  : result (list (list Z)) :=
  let data := Np.fromfile_be_i2 file in
  elevation <- Np.reshape TruncatedInput data nrows ncols ;;
  let elevation := Np.flipud elevation in
  ret (Np.astype_int16 elevation).

(** The layout of the file, read off the byte buffer: sample [i] of the
    file is the big-endian pair at bytes [2i] and [2i+1], and row [k] of
    the file holds the samples [k * ncols] to [k * ncols + ncols - 1]. *)
Definition file_sample (file : list byte) (i : nat) : Z :=
  Np.be_i2 (nth (2 * i) file x00) (nth (2 * i + 1) file x00).

Definition file_row (ncols : nat) (file : list byte) (k : nat) : list Z :=
  map (fun c => file_sample file (k * ncols + c)) (seq 0 ncols).

(** ** hgt_to_geotiff.py, lines 56-61: the affine transform *)

Record AffineTransform : Type := mkAffine {
  origin_x : F64.float64;
  origin_y : F64.float64;
  pixel_width : F64.float64;
  pixel_height : F64.float64
}.

(** [a / b] on Python integers: the quotient rounded to the nearest
    [float] (the operands here are far below [2^53], so their conversion
    is exact); [ZeroDivisionError] for a zero divisor. *)
Definition truediv (a b : Z) : result F64.float64 :=
  if b =? 0 then raise InvalidDimensions
  else ret (F64.div (F64.of_Z a) (F64.of_Z b)).

(** Modelled from the spec: [from_origin] belongs to the raster library,
    which is not part of the repository.  The design's AffineTransform
    keeps the coordinate of the top-left corner and the two pixel sizes,
    the height as a positive magnitude. *)
Definition from_origin (west north : Z) (xsize ysize : F64.float64)
  : AffineTransform :=
  mkAffine (F64.of_Z west) (F64.of_Z north) xsize ysize.

(** Modelled from the spec: the raster library's application of a
    transform to a pixel, "(origin_x + col * pixel_width,
    origin_y - row * pixel_height)", in the library's [float]
    arithmetic. *)
Definition transform_apply (t : AffineTransform) (col row : Z)
  : F64.float64 * F64.float64 :=
  (F64.add (origin_x t) (F64.mul (F64.of_Z col) (pixel_width t)),
   F64.sub (origin_y t) (F64.mul (F64.of_Z row) (pixel_height t))).

(** The pixel size of a one-degree tile of 3601 samples a side. *)
Definition tile_pixel : F64.float64 := F64.div (F64.of_Z 1) (F64.of_Z 3601).

Definition build_transform (b : GeoBounds) (nrows ncols : nat)
  : result AffineTransform :=
  pixel_width <- truediv (east b - west b) (Z.of_nat ncols) ;;
  pixel_height <- truediv (north b - south b) (Z.of_nat nrows) ;;
  ret (from_origin (west b) (north b) pixel_width pixel_height).

(** ** hgt_to_geotiff.py: the raster handed to the writer *)

Record GeoTIFF : Type := mkGeoTIFF {
  height : nat;
  width : nat;
  transform : AffineTransform;
  nodata : Z;
  band1 : list (list Z)
}.

Definition hgt_to_geotiff_dims (nrows ncols : nat)
  (filename : string) (file : list byte) : result GeoTIFF :=
  b <- resolve_bounds filename ;;
  elevation <- read_elevation nrows ncols file ;;
  transform <- build_transform b nrows ncols ;;
  ret (mkGeoTIFF nrows ncols transform (-32768) elevation).

Definition hgt_to_geotiff : string -> list byte -> result GeoTIFF :=
  hgt_to_geotiff_dims nrows ncols.

(** hgt_to_geotiff.py, lines 12-78, from the path of the tile file and
    the content of that file. *)
Definition hgt_to_geotiff_path (hgt_file : string) (file : list byte)
  : result GeoTIFF :=
  hgt_to_geotiff (filename_of hgt_file) file.

(** ** dem_to_heightmap.py, lines 20-34

    [elevation] is band 1 of the raster, of dtype [int16] as the writer
    above stores it; [nodata] is the raster's nodata value. *)

(** Line 34, for one valid sample: the subtractions are [int16]
    subtractions, the division and the product are [float64]. *)
Definition quantize (d r : Z) : Z :=
  Np.astype_uint8 (F64.mul (F64.div (F64.of_Z d) (F64.of_Z r)) (F64.of_Z 255)).

Definition scale (min_elev max_elev s : Z) : Z :=
  quantize (Np.int16 (s - min_elev)) (Np.int16 (max_elev - min_elev)).

Definition dem_to_heightmap (nodata : Z) (elevation : list (list Z))
  : result (list (list Z)) :=
  let valid_data := Np.getmask elevation (Np.ne elevation nodata) in
  min_elev <- lift EmptyValidRange (Np.amin valid_data) ;;
  max_elev <- lift EmptyValidRange (Np.amax valid_data) ;;
  let heightmap := Np.zeros_like elevation in
  let mask := Np.ne elevation nodata in
  ret (Np.setmask mask heightmap
         (map (scale min_elev max_elev) (Np.getmask elevation mask))).

(** The quantization of the design, on exact rationals: the integer part
    of [(s - min_elev) / (max_elev - min_elev) * 255]. *)
Definition floor_scale (min_elev max_elev s : Z) : Z :=
  (s - min_elev) * 255 / (max_elev - min_elev).

(** ** Checks by enumeration

    A boolean check over the integers [lo], [lo + 1], ..., [n] of them. *)
Fixpoint forall_from (P : Z -> bool) (lo : Z) (n : nat) : bool :=
  match n with
  | O => true
  | S k => P lo && forall_from P (lo + 1) k
  end.

(** A normal positive [float64] that is the integer [z]: a 53-bit
    mantissa and the exponent that goes with it. *)
Definition normal_check (z : Z) (x : F64.float64) : bool :=
  match x with
  | S754_finite false m e =>
      (2 ^ 52 <=? Zpos m) && (Zpos m <? 2 ^ 53)
      && (-52 <=? e) && (e <=? -38) && (Zpos m =? z * 2 ^ (- e))
  | _ => false
  end.

(** The quotient [d / r] when [d] is [j * u] and [r] is [g * u]: the two
    53-bit mantissas are a common multiple of [x] and [y] below, where
    [c] is the difference of the two binary exponents, and the division
    rounds [x * 2^53 / y] with the location of the remainder. *)
Definition ratio_num (j c : Z) : Z := if 0 <=? c then j * 2 ^ c else j.
Definition ratio_den (g c : Z) : Z := if 0 <=? c then g else g * 2 ^ (- c).

Definition quantize_ratio (j g c : Z) : Z :=
  let x := ratio_num j c in
  let y := ratio_den g c in
  Np.astype_uint8
    (F64.mul
       (binary_round_aux F64.prec F64.emax false (x * 2 ^ 53 / y) (- c - 53)
          (new_location_even y ((x * 2 ^ 53) mod y)))
       (F64.of_Z 255)).

(** The quantization at the ratios [j / g] for which [255 * j / g] is an
    integer ([g] divides 255), at every exponent difference that two
    53-bit mantissas of that ratio can have. *)
Definition exact_ratio_check (g j c : Z) : bool :=
  let x := ratio_num j c in
  let y := ratio_den g c in
  if (x <? 2 * y) && (y <? 2 * x)
  then quantize_ratio j g c =? j * (255 / g)
  else true.

Definition exact_quotients_check (g : Z) : bool :=
  if 255 mod g =? 0
  then forall_from
         (fun j => forall_from (exact_ratio_check g j) (-14) 29)
         1 (Z.to_nat g)
  else true.

(** * Properties *)

(** ** Tile identifiers *)

Example resolve_S27E152 :
  resolve_bounds "S27E152" = inr (mkBounds 152 (-27) 153 (-26)).
Proof. reflexivity. Qed.

Example resolve_signs :
  resolve_bounds "S-5E+12" = inr (mkBounds 12 5 13 6).
Proof. reflexivity. Qed.

Example resolve_long :
  resolve_bounds "N01W002_v2" = inr (mkBounds (-2) 1 (-1) 2).
Proof. reflexivity. Qed.

Example resolve_short : resolve_bounds "S27" = inl MalformedIdentifier.
Proof. reflexivity. Qed.

(** A no-break space, U+00A0, before the digit is skipped by [int()]. *)
Example resolve_no_break_space :
  resolve_bounds (String "N" (String (ascii_of_N 160) "1E152"))
  = inr (mkBounds 152 1 153 2).
Proof. reflexivity. Qed.

(** The separator U+001C is not. *)
Example resolve_separator :
  resolve_bounds (String "N" (String (ascii_of_N 28) "1E152"))
  = inl MalformedIdentifier.
Proof. reflexivity. Qed.

Lemma digit_cases (c : ascii) :
  Py.is_digit c = true ->
  In c ["0"; "1"; "2"; "3"; "4"; "5"; "6"; "7"; "8"; "9"]%char.
Proof.
  intros H.
  destruct c as [[] [] [] [] [] [] [] []];
    vm_compute in H; try discriminate H; simpl; tauto.
Qed.

Ltac digit_split H :=
  apply digit_cases in H; simpl in H;
  repeat (destruct H as [H | H]; [subst | ]); [ .. | contradiction ].

Lemma scan_digits_digit (c : ascii) (s : string) (acc : Z) (prev : bool) :
  Py.is_digit c = true ->
  Py.scan_digits (String c s) acc prev
  = Py.scan_digits s (10 * acc + Py.digit_value c) false.
Proof. intros H. simpl. rewrite H. reflexivity. Qed.

(** A literal that starts with a digit has no sign and no leading space. *)
Lemma int_digit_start (c : ascii) (s : string) :
  Py.is_digit c = true ->
  Py.int (String c s)
  = match Py.scan_digits (String c s) 0 false with
    | Some (v, rest) => if Py.all_space rest then Some v else None
    | None => None
    end.
Proof.
  intros H. digit_split H; reflexivity.
Qed.

Lemma int_two_digits (a b : ascii) :
  Py.is_digit a = true -> Py.is_digit b = true ->
  Py.int (String a (String b EmptyString))
  = Some (10 * Py.digit_value a + Py.digit_value b).
Proof.
  intros Ha Hb.
  rewrite (int_digit_start _ _ Ha).
  rewrite (scan_digits_digit _ _ _ _ Ha), (scan_digits_digit _ _ _ _ Hb).
  cbn [Py.scan_digits Py.all_space]. f_equal; lia.
Qed.

Lemma int_three_digits (a b c : ascii) :
  Py.is_digit a = true -> Py.is_digit b = true -> Py.is_digit c = true ->
  Py.int (String a (String b (String c EmptyString)))
  = Some (100 * Py.digit_value a + 10 * Py.digit_value b + Py.digit_value c).
Proof.
  intros Ha Hb Hc.
  rewrite (int_digit_start _ _ Ha).
  rewrite (scan_digits_digit _ _ _ _ Ha), (scan_digits_digit _ _ _ _ Hb),
    (scan_digits_digit _ _ _ _ Hc).
  cbn [Py.scan_digits Py.all_space]. f_equal; lia.
Qed.

(** C8: for every tile identifier that matches the pattern
    [[N|S]<2-digit lat>[E|W]<3-digit lon>], the resolver returns the
    one-degree box of the design: south is [-lat] for hemisphere S and
    [+lat] otherwise, north is south + 1, west is [-lon] for hemisphere W
    and [+lon] otherwise, east is west + 1. *)
Theorem resolve_bounds_pattern (id : string) :
  tile_pattern id = true ->
  resolve_bounds id = inr (pattern_box id).
Proof.
  intros H.
  destruct id as [|h1 [|d1 [|d2 [|h2 [|d3 [|d4 [|d5 [|x r]]]]]]]];
    try discriminate H.
  unfold tile_pattern in H.
  repeat (apply andb_true_iff in H; destruct H as [H ?]).
  unfold resolve_bounds, Py.index, Py.slice. simpl String.get. simpl substring.
  rewrite int_two_digits, int_three_digits by assumption.
  unfold lift, ret, bind, pattern_box.
  destruct (Ascii.eqb h1 "S"), (Ascii.eqb h2 "W"); reflexivity.
Qed.

Lemma resolve_bounds_pattern_witness :
  tile_pattern "S27E152" = true
  /\ resolve_bounds "S27E152" = inr (mkBounds 152 (-27) 153 (-26)).
Proof.
  split; [reflexivity | ].
  exact (resolve_bounds_pattern "S27E152" eq_refl).
Defined.

(** C2, as the claim states it, fails: an identifier whose hemisphere
    letters are neither N/S nor E/W is outside the pattern and resolves. *)
Lemma resolve_bounds_accepts_other_letters :
  tile_pattern "X27Q152" = false
  /\ resolve_bounds "X27Q152" = inr (mkBounds 152 27 153 28).
Proof. split; reflexivity. Qed.

Lemma get_none_length (s : string) (n : nat) :
  String.get n s = None <-> (String.length s <= n)%nat.
Proof.
  revert n. induction s as [|c s IH]; intros n.
  - destruct n; simpl; split; intros; try reflexivity; lia.
  - destruct n; simpl.
    + split; [discriminate | lia].
    + rewrite IH. lia.
Qed.

(** *** The literals of [int()]

    [Py.int] accepts exactly the literals described in words, with their
    values. *)

Lemma append_nil_r (s : string) : (s ++ "")%string = s.
Proof. induction s as [|c s IH]; [reflexivity | ]. simpl. rewrite IH. reflexivity. Qed.

Lemma append_assoc (a b c : string) :
  ((a ++ b) ++ c)%string = (a ++ (b ++ c))%string.
Proof. induction a as [|x a IH]; [reflexivity | ]. simpl. rewrite IH. reflexivity. Qed.

Lemma white_space_spec (c : ascii) : Py.is_space c = white_space c.
Proof. destruct c as [[] [] [] [] [] [] [] []]; reflexivity. Qed.

Lemma decimal_digit_spec (c : ascii) :
  decimal_digit c
  = if Py.is_digit c then Some (Py.digit_value c) else None.
Proof. destruct c as [[] [] [] [] [] [] [] []]; reflexivity. Qed.

Lemma decimal_digit_some (c : ascii) (d : Z) :
  decimal_digit c = Some d <-> Py.is_digit c = true /\ d = Py.digit_value c.
Proof.
  rewrite decimal_digit_spec.
  destruct (Py.is_digit c); split.
  - intros [= <-]. split; reflexivity.
  - intros [_ ->]. reflexivity.
  - discriminate.
  - intros [H _]. discriminate H.
Qed.

(** A white space character is no digit and no underscore; a digit is no
    white space, no sign and no underscore. *)
Lemma space_other (c : ascii) :
  Py.is_space c = true ->
  Py.is_digit c = false /\ Ascii.eqb c "_" = false.
Proof.
  intros H.
  destruct c as [[] [] [] [] [] [] [] []];
    vm_compute in H; try discriminate H; split; reflexivity.
Qed.

Lemma digit_other (c : ascii) :
  Py.is_digit c = true ->
  Py.is_space c = false /\ Ascii.eqb c "-" = false
  /\ Ascii.eqb c "+" = false /\ Ascii.eqb c "_" = false.
Proof.
  intros H. digit_split H; repeat split; reflexivity.
Qed.

Lemma spaces_all (s : string) : spaces s <-> Py.all_space s = true.
Proof.
  induction s as [|c s IH]; simpl.
  - split; [reflexivity | constructor].
  - rewrite andb_true_iff, <- IH, white_space_spec. split.
    + intros H. inversion H; subst. split; assumption.
    + intros [Hc Hs]. constructor; assumption.
Qed.

Lemma lstrip_split (s : string) :
  exists l, spaces l /\ s = (l ++ Py.lstrip s)%string.
Proof.
  induction s as [|c s (l & Hl & E)].
  - exists EmptyString. split; [constructor | reflexivity].
  - cbn [Py.lstrip]. destruct (Py.is_space c) eqn:Hc.
    + exists (String c l). split.
      * constructor; [rewrite <- white_space_spec; exact Hc | exact Hl].
      * simpl. rewrite <- E. reflexivity.
    + exists EmptyString. split; [constructor | reflexivity].
Qed.

Lemma lstrip_app (l : string) (c : ascii) (t : string) :
  spaces l -> Py.is_space c = false ->
  Py.lstrip (l ++ String c t) = String c t.
Proof.
  intros Hl Hc. induction Hl as [|x l Hx Hl IH].
  - simpl. rewrite Hc. reflexivity.
  - simpl. rewrite white_space_spec, Hx. exact IH.
Qed.

Lemma digits_head (s : string) (n : Z) :
  digits s n -> exists c s', s = String c s' /\ Py.is_digit c = true.
Proof.
  induction 1 as [c d Hd | s n c d _ (c0 & s0 & -> & H0) _
                 | s n c d _ (c0 & s0 & -> & H0) _].
  - exists c, EmptyString. split; [reflexivity | ].
    apply decimal_digit_some in Hd. apply Hd.
  - exists c0, (s0 ++ String c EmptyString)%string. split; [reflexivity | exact H0].
  - exists c0, (s0 ++ String "_" (String c EmptyString))%string.
    split; [reflexivity | exact H0].
Qed.

(** The scan reads a digit string to its end and arrives at its
    value. *)
Lemma digits_scan (s : string) (n : Z) :
  digits s n ->
  forall t prev,
    Py.scan_digits (s ++ t) 0 prev = Py.scan_digits t n false.
Proof.
  induction 1 as [c d Hd | s n c d _ IH Hd | s n c d _ IH Hd];
    intros t prev; apply decimal_digit_some in Hd; destruct Hd as [Hc ->].
  - cbn [String.append Py.scan_digits]. rewrite Hc. reflexivity.
  - rewrite append_assoc, IH. cbn [String.append Py.scan_digits].
    rewrite Hc. reflexivity.
  - rewrite append_assoc, IH. cbn [String.append Py.scan_digits].
    rewrite Hc. reflexivity.
Qed.

Lemma scan_spaces (r : string) (n : Z) :
  spaces r -> Py.scan_digits r n false = Some (n, r).
Proof.
  intros [|c s Hc Hs]; [reflexivity | ].
  rewrite <- white_space_spec in Hc.
  destruct (space_other c Hc) as [D U].
  cbn [Py.scan_digits]. rewrite D, U. reflexivity.
Qed.

(** What the scan has read is a digit string.  [pre] is the part already
    read, of value [acc], with an underscore after it when [prev] is
    set. *)
Lemma scan_digits_digits (t : string) :
  forall pre acc prev v rest,
    (if prev : bool
     then exists p, pre = (p ++ "_")%string /\ digits p acc
     else digits pre acc) ->
    Py.scan_digits t acc prev = Some (v, rest) ->
    exists body, (pre ++ t)%string = (body ++ rest)%string /\ digits body v.
Proof.
  induction t as [|c t IH]; intros pre acc prev v rest Hpre H.
  - cbn [Py.scan_digits] in H. destruct prev; [discriminate | ].
    injection H as <- <-. exists pre. split; [reflexivity | exact Hpre].
  - cbn [Py.scan_digits] in H.
    assert (A : (pre ++ String c t)%string
                = ((pre ++ String c EmptyString) ++ t)%string)
      by (rewrite append_assoc; reflexivity).
    destruct (Py.is_digit c) eqn:Hc.
    + rewrite A.
      apply (IH _ _ _ _ _) with (2 := H). cbv iota.
      assert (Hd : decimal_digit c = Some (Py.digit_value c))
        by (apply decimal_digit_some; split; [exact Hc | reflexivity]).
      destruct prev.
      * destruct Hpre as (p & -> & Hp). rewrite append_assoc.
        apply digits_under; assumption.
      * apply digits_next; assumption.
    + destruct (Ascii.eqb_spec c "_") as [-> | Hu].
      * destruct prev; [discriminate | ].
        rewrite A. apply (IH _ _ _ _ _) with (2 := H).
        exists pre. split; [reflexivity | exact Hpre].
      * destruct prev; [discriminate | ].
        injection H as <- <-. exists pre. split; [reflexivity | exact Hpre].
Qed.

Lemma int_digits_literal (neg : bool) (t : string) (w : Z) :
  Py.int_digits neg t = Some w ->
  exists body rest n,
    t = (body ++ rest)%string /\ digits body n /\ spaces rest
    /\ w = if neg then - n else n.
Proof.
  unfold Py.int_digits. destruct t as [|c t]; [discriminate | ].
  destruct (Py.is_digit c) eqn:Hc; [ | discriminate].
  destruct (Py.scan_digits (String c t) 0 false) as [[u rest]|] eqn:E;
    [ | discriminate].
  destruct (Py.all_space rest) eqn:R; [ | discriminate].
  intros [= <-].
  cbn [Py.scan_digits] in E. rewrite Hc in E.
  destruct (scan_digits_digits t (String c EmptyString)
              (10 * 0 + Py.digit_value c) false u rest)
    as (body & B & D); [ | exact E | ].
  - change (10 * 0 + Py.digit_value c) with (Py.digit_value c).
    apply digits_one, decimal_digit_some. split; [exact Hc | reflexivity].
  - exists body, rest, u. split; [exact B | ]. split; [exact D | ].
    split; [apply spaces_all; exact R | reflexivity].
Qed.

Lemma literal_int_digits (neg : bool) (s r : string) (n : Z) :
  digits s n -> spaces r ->
  Py.int_digits neg (s ++ r) = Some (if neg then - n else n).
Proof.
  intros Hs Hr. unfold Py.int_digits.
  destruct (digits_head s n Hs) as (c & s' & E & Hc).
  rewrite (digits_scan s n Hs), (scan_spaces r n Hr).
  apply spaces_all in Hr. rewrite Hr.
  rewrite E. cbn [String.append]. rewrite Hc. reflexivity.
Qed.

(** [int()] returns [v] exactly on the literals of value [v]. *)
Lemma int_spec (s : string) (v : Z) :
  Py.int s = Some v <-> int_literal s v.
Proof.
  split.
  - unfold Py.int. destruct (lstrip_split s) as (l & Hl & E).
    destruct (Py.lstrip s) as [|c r]; [discriminate | ].
    destruct (Ascii.eqb_spec c "-") as [-> | Hm];
      [ | destruct (Ascii.eqb_spec c "+") as [-> | Hp]];
      intros H; apply int_digits_literal in H;
      destruct H as (body & rest & n & B & D & R & ->); rewrite E.
    + rewrite B. apply literal_minus; assumption.
    + rewrite B. apply literal_plus; assumption.
    + rewrite B. apply literal_plain; assumption.
  - intros [l b r n Hl Hb Hr | l b r n Hl Hb Hr | l b r n Hl Hb Hr];
      unfold Py.int.
    + destruct (digits_head b n Hb) as (c & b' & E & Hc).
      destruct (digit_other c Hc) as (S & M & P & _).
      pose proof (literal_int_digits false b r n Hb Hr) as I.
      rewrite E in I |- *. cbn [String.append] in I |- *.
      rewrite (lstrip_app l c _ Hl S), M, P. exact I.
    + rewrite (lstrip_app l "+" _ Hl eq_refl).
      change (Ascii.eqb "+" "-") with false.
      change (Ascii.eqb "+" "+") with true. cbv iota.
      apply (literal_int_digits false); assumption.
    + rewrite (lstrip_app l "-" _ Hl eq_refl).
      change (Ascii.eqb "-" "-") with true. cbv iota.
      apply (literal_int_digits true); assumption.
Qed.

Lemma int_none (s : string) :
  Py.int s = None <-> ~ (exists v, int_literal s v).
Proof.
  split.
  - intros H [v L]. apply int_spec in L. congruence.
  - intros H. destruct (Py.int s) as [v|] eqn:E; [ | reflexivity].
    exfalso. apply H. exists v. apply int_spec. exact E.
Qed.

(** C2, amended: the resolver fails with [MalformedIdentifier] exactly
    when the identifier has fewer than four characters, or its characters
    1-2, or its characters 4-6, are not an integer literal: optional
    white space, an optional sign, decimal digits with single underscores
    allowed between them, optional white space.  The hemisphere letters
    are not validated: on every other identifier the resolver returns the
    one-degree box with south = -lat when character 0 is S and +lat for
    any other character, and west = -lon when character 3 is W and +lon
    for any other character, where lat and lon are the values of the two
    literals.  Identifiers are strings of code points below 256. *)
Theorem resolve_bounds_fails_iff (id : string) :
  (resolve_bounds id = inl MalformedIdentifier
   <-> ((String.length id < 4)%nat
        \/ ~ (exists lat, int_literal (substring 1 2 id) lat)
        \/ ~ (exists lon, int_literal (substring 4 3 id) lon)))
  /\ (forall h1 h2 lat lon,
        String.get 0 id = Some h1 -> String.get 3 id = Some h2 ->
        int_literal (substring 1 2 id) lat ->
        int_literal (substring 4 3 id) lon ->
        resolve_bounds id
        = inr (let s := if Ascii.eqb h1 "S" then - lat else lat in
               let w := if Ascii.eqb h2 "W" then - lon else lon in
               mkBounds w s (w + 1) (s + 1))).
Proof.
  unfold resolve_bounds, Py.index, Py.slice.
  change (3 - 1)%nat with 2%nat. change (7 - 4)%nat with 3%nat.
  split.
  - rewrite <- !int_none.
    destruct (String.get 0 id) as [lat_dir|] eqn:E0.
    2:{ apply get_none_length in E0. simpl. split; [lia | reflexivity]. }
    destruct (Py.int (substring 1 2 id)) as [lat_val|] eqn:E1.
    2:{ simpl. split; [tauto | reflexivity]. }
    destruct (String.get 3 id) as [lon_dir|] eqn:E3.
    2:{ apply get_none_length in E3. simpl. split; [lia | reflexivity]. }
    assert (L : ~ (String.length id < 4)%nat).
    { intros L. assert (G : String.get 3 id = None)
        by (apply get_none_length; lia). congruence. }
    destruct (Py.int (substring 4 3 id)) as [lon_val|] eqn:E4.
    2:{ simpl. split; [tauto | reflexivity]. }
    simpl. destruct (Ascii.eqb lat_dir "S"), (Ascii.eqb lon_dir "W"); simpl;
      (split; [discriminate
              | intros [A | [A | A]]; [contradiction | discriminate ..]]).
  - intros h1 h2 lat lon E0 E3 L1 L4.
    apply int_spec in L1, L4. rewrite E0, E3, L1, L4.
    cbn [lift ret bind].
    destruct (Ascii.eqb h1 "S"), (Ascii.eqb h2 "W"); reflexivity.
Qed.

Lemma resolve_bounds_fails_iff_witness :
  resolve_bounds "x-5y1_2" = inr (mkBounds 12 (-5) 13 (-4)).
Proof.
  apply (proj2 (resolve_bounds_fails_iff "x-5y1_2") "x"%char "y"%char (-5) 12);
    try reflexivity.
  - apply (literal_minus "" "5" "" 5);
      [constructor | apply digits_one; reflexivity | constructor].
  - apply (literal_plain "" "1_2" "" 12); [constructor | | constructor].
    apply (digits_under "1" 1 "2" 2);
      [apply digits_one | ]; reflexivity.
Defined.

(** The resolver never fails with another error kind. *)
Lemma resolve_bounds_error (id : string) (e : error) :
  resolve_bounds id = inl e -> e = MalformedIdentifier.
Proof.
  unfold resolve_bounds.
  destruct (Py.index id 0); [ | simpl; congruence].
  destruct (Py.int (Py.slice id 1 3)); [ | simpl; congruence].
  destruct (Py.index id 3); [ | simpl; congruence].
  destruct (Py.int (Py.slice id 4 7)); [ | simpl; congruence].
  simpl. destruct (Ascii.eqb _ "S"), (Ascii.eqb _ "W"); discriminate.
Qed.


Lemma digit_value_range (c : ascii) :
  Py.is_digit c = true -> 0 <= Py.digit_value c <= 9.
Proof. intros H. digit_split H; vm_compute; split; discriminate. Qed.

Lemma scan_digits_bound (s : string) :
  forall acc prev v rest,
    0 <= acc ->
    Py.scan_digits s acc prev = Some (v, rest) ->
    0 <= v < (acc + 1) * 10 ^ Z.of_nat (String.length s).
Proof.
  induction s as [|c s IH]; intros acc prev v rest Hacc H.
  - simpl in H. destruct prev; [discriminate | ].
    injection H as <- _. simpl. lia.
  - cbn [Py.scan_digits] in H. cbn [String.length].
    rewrite Nat2Z.inj_succ, Z.pow_succ_r by lia.
    assert (P : 0 < 10 ^ Z.of_nat (String.length s))
      by (apply Z.pow_pos_nonneg; lia).
    destruct (Py.is_digit c) eqn:D.
    + apply digit_value_range in D.
      apply IH in H; [ | lia]. nia.
    + destruct (Ascii.eqb c "_").
      * destruct prev; [discriminate | ].
        apply IH in H; [ | lia]. nia.
      * destruct prev; [discriminate | ].
        injection H as <- _. nia.
Qed.

Lemma lstrip_length (s : string) :
  (String.length (Py.lstrip s) <= String.length s)%nat.
Proof.
  induction s as [|c s IH]; simpl; [lia | ].
  destruct (Py.is_space c); simpl; lia.
Qed.

(** A literal of [n] characters is below [10 ^ n] in magnitude. *)
Lemma int_bound (s : string) (v : Z) :
  Py.int s = Some v -> Z.abs v < 10 ^ Z.of_nat (String.length s).
Proof.
  unfold Py.int. pose proof (lstrip_length s) as L.
  assert (M : forall (t : string) (w : Z) (neg : bool),
             (String.length t <= String.length s)%nat ->
             Py.int_digits neg t = Some w ->
             Z.abs w < 10 ^ Z.of_nat (String.length s)).
  { intros t w neg Lt H. unfold Py.int_digits in H.
    destruct t as [|c t']; [discriminate | ].
    destruct (Py.is_digit c); [ | discriminate].
    destruct (Py.scan_digits (String c t') 0 false) as [[u rest]|] eqn:E;
      [ | discriminate].
    destruct (Py.all_space rest); [ | discriminate].
    apply scan_digits_bound in E; [ | lia].
    assert (10 ^ Z.of_nat (String.length (String c t'))
            <= 10 ^ Z.of_nat (String.length s))
      by (apply Z.pow_le_mono_r; lia).
    injection H as <-. destruct neg; lia. }
  destruct (Py.lstrip s) as [|c r] eqn:E.
  - intros H. discriminate.
  - destruct (Ascii.eqb c "-"); [ | destruct (Ascii.eqb c "+")];
      intros H; apply M in H; try exact H; simpl in L |- *; lia.
Qed.

Lemma substring_length (n m : nat) (s : string) :
  (String.length (substring n m s) <= m)%nat.
Proof.
  revert n m. induction s as [|c s IH]; intros n m.
  - destruct n, m; simpl; lia.
  - destruct n as [|n]; [destruct m as [|m] | ]; simpl.
    + lia.
    + specialize (IH 0%nat m). lia.
    + apply IH.
Qed.

(** Every box the resolver returns is a one-degree box with integer
    corners below 1000 in magnitude. *)
Lemma resolve_bounds_unit_box (id : string) (b : GeoBounds) :
  resolve_bounds id = inr b ->
  east b = west b + 1 /\ north b = south b + 1
  /\ -999 <= west b <= 999 /\ -99 <= south b <= 99.
Proof.
  unfold resolve_bounds.
  destruct (Py.index id 0) as [lat_dir|]; [ | discriminate].
  destruct (Py.int (Py.slice id 1 3)) as [lat_val|] eqn:E1; [ | discriminate].
  destruct (Py.index id 3) as [lon_dir|]; [ | discriminate].
  destruct (Py.int (Py.slice id 4 7)) as [lon_val|] eqn:E4; [ | discriminate].
  apply int_bound in E1, E4.
  assert (B1 : 10 ^ Z.of_nat (String.length (Py.slice id 1 3)) <= 10 ^ 2).
  { apply Z.pow_le_mono_r; [lia | ].
    pose proof (substring_length 1 2 id). unfold Py.slice. simpl. lia. }
  assert (B4 : 10 ^ Z.of_nat (String.length (Py.slice id 4 7)) <= 10 ^ 3).
  { apply Z.pow_le_mono_r; [lia | ].
    pose proof (substring_length 4 3 id). unfold Py.slice. simpl. lia. }
  cbn [lift ret bind].
  destruct (Ascii.eqb lat_dir "S"), (Ascii.eqb lon_dir "W");
    intros [= <-]; cbn [west south east north]; lia.
Qed.

(** ** The sample grid *)

Example decode_ignores_odd_byte :
  read_elevation 1 2 [x00; x01; xff; xff; x07] = inr [[1; -1]].
Proof. reflexivity. Qed.

Example decode_short : read_elevation 1 2 [x00; x01; xff] = inl TruncatedInput.
Proof. reflexivity. Qed.

Example decode_flips :
  read_elevation 2 2 [x00; x01; x00; x02; x00; x03; x80; x00]
  = inr [[3; -32768]; [1; 2]].
Proof. reflexivity. Qed.

Lemma list_pair_ind {A} (P : list A -> Prop) :
  P [] -> (forall x, P [x]) -> (forall x y l, P l -> P (x :: y :: l)) ->
  forall l, P l.
Proof.
  intros H0 H1 H2. fix IH 1.
  intros [|x [|y l]]; [exact H0 | apply H1 | apply H2, IH].
Qed.

Lemma int16_range (z : Z) : Np.is_int16 (Np.int16 z).
Proof.
  unfold Np.is_int16, Np.int16.
  pose proof (Z.mod_pos_bound (z + 32768) 65536). lia.
Qed.

Lemma int16_id (z : Z) : Np.is_int16 z -> Np.int16 z = z.
Proof.
  unfold Np.is_int16, Np.int16. intros H.
  rewrite Z.mod_small by lia. lia.
Qed.

Lemma int16_idem (z : Z) : Np.int16 (Np.int16 z) = Np.int16 z.
Proof. apply int16_id, int16_range. Qed.

Lemma fromfile_length (file : list byte) :
  Z.of_nat (length (Np.fromfile_be_i2 file)) = Z.of_nat (length file) / 2.
Proof.
  induction file as [ | x | x y l IH] using list_pair_ind.
  - reflexivity.
  - reflexivity.
  - cbn [Np.fromfile_be_i2 length].
    rewrite !Nat2Z.inj_succ, IH.
    replace (Z.succ (Z.succ (Z.of_nat (length l))))
      with (1 * 2 + Z.of_nat (length l)) by lia.
    rewrite Z.div_add_l by lia. lia.
Qed.

Lemma fromfile_nth (file : list byte) (i : nat) :
  (2 * i + 1 < length file)%nat ->
  nth i (Np.fromfile_be_i2 file) 0 = file_sample file i.
Proof.
  revert i. induction file as [ | x | x y l IH] using list_pair_ind;
    intros i H.
  - simpl in H. lia.
  - simpl in H. lia.
  - destruct i as [|j].
    + reflexivity.
    + cbn [Np.fromfile_be_i2 nth]. rewrite IH by (simpl in H; lia).
      unfold file_sample.
      replace (2 * S j)%nat with (S (S (2 * j))) by lia.
      replace (S (S (2 * j)) + 1)%nat with (S (S (2 * j + 1))) by lia.
      reflexivity.
Qed.

Lemma fromfile_int16 (file : list byte) :
  map Np.int16 (Np.fromfile_be_i2 file) = Np.fromfile_be_i2 file.
Proof.
  induction file as [ | x | x y l IH] using list_pair_ind;
    try reflexivity.
  cbn [Np.fromfile_be_i2 map]. rewrite IH. f_equal.
  unfold Np.be_i2. apply int16_idem.
Qed.

Lemma rows_of_length {A} (nr nc : nat) (l : list A) :
  length (Np.rows_of nr nc l) = nr.
Proof.
  revert l. induction nr as [|k IH]; intros l; simpl; [ | rewrite IH];
    reflexivity.
Qed.

Lemma rows_of_nth {A} (nr nc : nat) (l : list A) (r : nat) :
  (r < nr)%nat ->
  nth r (Np.rows_of nr nc l) [] = firstn nc (skipn (r * nc) l).
Proof.
  revert l r. induction nr as [|k IH]; intros l r H; [lia | ].
  destruct r as [|r'].
  - reflexivity.
  - cbn [Np.rows_of nth]. rewrite IH by lia.
    rewrite skipn_skipn. do 2 f_equal. lia.
Qed.

Lemma rows_of_map {A B} (f : A -> B) (nr nc : nat) (l : list A) :
  map (map f) (Np.rows_of nr nc l) = Np.rows_of nr nc (map f l).
Proof.
  revert l. induction nr as [|k IH]; intros l; [reflexivity | ].
  cbn [Np.rows_of map]. rewrite IH, firstn_map, skipn_map. reflexivity.
Qed.

(** A run of [nc] decoded samples that lies inside the file is the
    corresponding row of byte pairs. *)
Lemma fromfile_row (nc : nat) (file : list byte) (k : nat) :
  (2 * ((k + 1) * nc) <= length file)%nat ->
  firstn nc (skipn (k * nc) (Np.fromfile_be_i2 file)) = file_row nc file k.
Proof.
  intros H.
  assert (L : Z.of_nat (length (Np.fromfile_be_i2 file))
              = Z.of_nat (length file) / 2) by apply fromfile_length.
  assert (L' : ((k + 1) * nc <= length (Np.fromfile_be_i2 file))%nat).
  { apply Nat2Z.inj_le. rewrite L. apply Z.div_le_lower_bound; lia. }
  apply (nth_ext _ _ 0 0).
  - unfold file_row.
    rewrite length_firstn, length_skipn, length_map, length_seq. lia.
  - intros c Hc.
    rewrite length_firstn, length_skipn in Hc.
    assert (Hc' : (c < nc)%nat) by lia.
    rewrite nth_firstn.
    destruct (Nat.ltb_spec c nc) as [_ | ?]; [ | lia].
    rewrite nth_skipn, fromfile_nth by lia.
    unfold file_row.
    rewrite (nth_indep _ 0 (file_sample file (k * nc + 0)))
      by (rewrite length_map, length_seq; lia).
    rewrite (map_nth (fun c => file_sample file (k * nc + c))).
    rewrite seq_nth by lia. reflexivity.
Qed.

Lemma read_elevation_value (nr nc : nat) (file : list byte) :
  Z.of_nat (length file) / 2 = Z.of_nat nr * Z.of_nat nc ->
  read_elevation nr nc file
  = inr (rev (Np.rows_of nr nc (Np.fromfile_be_i2 file))).
Proof.
  intros H. unfold read_elevation, Np.reshape.
  rewrite fromfile_length, H, Z.eqb_refl. cbn [ret bind].
  unfold Np.astype_int16, Np.flipud.
  rewrite map_rev, rows_of_map, fromfile_int16. reflexivity.
Qed.

Lemma concat_rows_of {A} (nr nc : nat) (l : list A) :
  length l = (nr * nc)%nat -> List.concat (Np.rows_of nr nc l) = l.
Proof.
  revert l. induction nr as [|k IH]; intros l HL; cbn [Np.rows_of List.concat].
  - destruct l; [reflexivity | discriminate].
  - rewrite IH by (rewrite length_skipn; lia). apply firstn_skipn.
Qed.

Lemma fromfile_count (nr nc : nat) (file : list byte) :
  Z.of_nat (length file) / 2 = Z.of_nat nr * Z.of_nat nc ->
  length (Np.fromfile_be_i2 file) = (nr * nc)%nat.
Proof.
  intros H. apply Nat2Z.inj. rewrite fromfile_length, H. lia.
Qed.

(** One item of dtype ['>i2'] is the number its two bytes write in base
    256, the first byte being the high-order one, read as a 16-bit two's
    complement number: from [2^15] on it stands for a negative number. *)
Lemma be_i2_value (hi lo : byte) :
  let u := 256 * Z.of_N (Byte.to_N hi) + Z.of_N (Byte.to_N lo) in
  Np.be_i2 hi lo = if u <? 32768 then u else u - 65536.
Proof.
  cbv zeta. unfold Np.be_i2, Np.int16.
  pose proof (Byte.to_N_bounded hi). pose proof (Byte.to_N_bounded lo).
  set (u := 256 * Z.of_N (Byte.to_N hi) + Z.of_N (Byte.to_N lo)).
  assert (Hu : 0 <= u < 65536) by (unfold u; lia).
  destruct (Z.ltb_spec u 32768).
  - rewrite Z.mod_small by lia. lia.
  - replace (u + 32768) with (u - 32768 + 1 * 65536) by lia.
    rewrite Z.mod_add, Z.mod_small by lia. lia.
Qed.

(** The decoded items are the byte pairs of the file, in file order. *)
Lemma fromfile_pairs (file : list byte) :
  Np.fromfile_be_i2 file
  = map (file_sample file) (seq 0 (length (Np.fromfile_be_i2 file))).
Proof.
  pose proof (fromfile_length file) as L.
  apply (nth_ext _ _ 0 0).
  - rewrite length_map, length_seq. reflexivity.
  - intros k Hk.
    assert (B : (2 * k + 1 < length file)%nat).
    { assert (Z.of_nat k < Z.of_nat (length file) / 2) by lia.
      pose proof (Z.mul_div_le (Z.of_nat (length file)) 2). lia. }
    rewrite (nth_indep (map (file_sample file) _) 0 (file_sample file 0))
      by (rewrite length_map, length_seq; exact Hk).
    rewrite (map_nth (file_sample file)), seq_nth by exact Hk.
    apply fromfile_nth. exact B.
Qed.

(** C6: for every buffer the decoder accepts, whatever the dimensions,
    each consecutive byte pair is one sample, decoded as a big-endian
    signed 16-bit integer: read in file order (the rows of the grid from
    the last to the first), sample [k] is the number that bytes [2k] and
    [2k + 1] write in base 256, high-order byte first, less [2^16] when
    that number reaches [2^15].  The decoding names the byte order
    itself and takes no host order.  The buffer [00 01 FF FF], read as
    one row of two columns, is [1, -1]. *)
Theorem read_elevation_big_endian (nr nc : nat) (file : list byte) :
  Z.of_nat (length file) / 2 = Z.of_nat nr * Z.of_nat nc ->
  (exists grid,
     read_elevation nr nc file = inr grid
     /\ List.concat (rev grid)
        = map (fun k =>
                 let u := 256 * Z.of_N (Byte.to_N (nth (2 * k) file x00))
                          + Z.of_N (Byte.to_N (nth (2 * k + 1) file x00)) in
                 if u <? 32768 then u else u - 65536)
            (seq 0 (nr * nc)))
  /\ read_elevation 1 2 [x00; x01; xff; xff] = inr [[1; -1]].
Proof.
  intros H. split; [ | reflexivity].
  exists (rev (Np.rows_of nr nc (Np.fromfile_be_i2 file))).
  split; [apply read_elevation_value; exact H | ].
  pose proof (fromfile_count nr nc file H) as C.
  rewrite rev_involutive, concat_rows_of by exact C.
  rewrite (fromfile_pairs file) at 1. rewrite C.
  apply map_ext. intros k. unfold file_sample. apply be_i2_value.
Qed.

Lemma read_elevation_big_endian_witness :
  exists grid,
    read_elevation 1 2 [x00; x01; xff; xff] = inr grid
    /\ List.concat (rev grid) = [1; -1].
Proof.
  destruct (read_elevation_big_endian 1 2 [x00; x01; xff; xff] eq_refl)
    as [(grid & E & V) _].
  exists grid. split; [exact E | exact V].
Defined.

(** C7: for every buffer of [nrows * ncols * 2] bytes the decoded grid
    has the file's rows in reverse order: output row [r] is row
    [nrows - 1 - r] of the file, so output row 0 is the file's last
    row. *)
Theorem read_elevation_row_order (nr nc : nat) (file : list byte) :
  Z.of_nat (length file) = 2 * Z.of_nat nr * Z.of_nat nc ->
  exists grid,
    read_elevation nr nc file = inr grid
    /\ length grid = nr
    /\ forall r, (r < nr)%nat -> nth r grid [] = file_row nc file (nr - 1 - r).
Proof.
  intros H.
  exists (rev (Np.rows_of nr nc (Np.fromfile_be_i2 file))).
  split; [ | split].
  - apply read_elevation_value. rewrite H.
    replace (2 * Z.of_nat nr * Z.of_nat nc)
      with (Z.of_nat nr * Z.of_nat nc * 2) by lia.
    apply Z.div_mul. lia.
  - rewrite length_rev. apply rows_of_length.
  - intros r Hr.
    rewrite rev_nth by (rewrite rows_of_length; exact Hr).
    rewrite rows_of_length, rows_of_nth by lia.
    replace (nr - S r)%nat with (nr - 1 - r)%nat by lia.
    apply fromfile_row. nia.
Qed.

Lemma read_elevation_row_order_witness :
  exists grid,
    read_elevation 2 2 [x00; x01; x00; x02; x00; x03; x80; x00] = inr grid
    /\ length grid = 2%nat
    /\ forall r, (r < 2)%nat ->
         nth r grid []
         = file_row 2 [x00; x01; x00; x02; x00; x03; x80; x00] (2 - 1 - r).
Proof.
  apply (read_elevation_row_order 2 2). reflexivity.
Defined.

(** C5, as the claim states it, fails: a buffer one byte longer than
    [3601 * 3601 * 2] is decoded, its last byte is not read. *)
Lemma read_elevation_accepts_odd_length :
  let file := repeat x00 (Z.to_nat (2 * 3601 * 3601 + 1)) in
  Z.of_nat (length file) <> 3601 * 3601 * 2
  /\ succeeds (read_elevation nrows ncols file).
Proof.
  cbv zeta. rewrite repeat_length, Z2Nat.id by lia.
  split; [lia | ].
  eexists. apply read_elevation_value.
  rewrite repeat_length, Z2Nat.id by lia.
  change (Z.of_nat nrows) with 3601. change (Z.of_nat ncols) with 3601.
  reflexivity.
Qed.

(** C5, amended: the decoder fails with [TruncatedInput] for every
    buffer whose number of complete two-byte samples, the length divided
    by two and rounded down, is not [nrows * ncols].  A buffer of
    [nrows * ncols * 2 + 1] bytes is accepted. *)
Theorem read_elevation_truncated (nr nc : nat) (file : list byte) :
  Z.of_nat (length file) / 2 <> Z.of_nat nr * Z.of_nat nc ->
  read_elevation nr nc file = inl TruncatedInput.
Proof.
  intros H. unfold read_elevation, Np.reshape.
  rewrite fromfile_length.
  destruct (Z.eqb_spec (Z.of_nat (length file) / 2)
              (Z.of_nat nr * Z.of_nat nc)) as [E | _];
    [contradiction | reflexivity].
Qed.

Lemma read_elevation_truncated_witness :
  read_elevation nrows ncols [x00; x01; xff] = inl TruncatedInput.
Proof.
  apply (read_elevation_truncated nrows ncols [x00; x01; xff]).
  vm_compute. discriminate.
Defined.

(** ** The affine transform *)

Lemma same_eq (x y : F64.float64) : F64.same x y = true -> x = y.
Proof.
  destruct x, y; simpl; try discriminate; intros H;
    repeat (apply andb_true_iff in H; destruct H as [H ?]);
    try apply Bool.eqb_prop in H; subst; try reflexivity.
  apply Pos.eqb_eq in H1. apply Z.eqb_eq in H0. subst. reflexivity.
Qed.

(** A check that ran over an interval holds at each of its members. *)
Lemma forall_interval (P : Z -> bool) (lo hi : Z) :
  forall_from P lo (Z.to_nat (hi - lo + 1)) = true ->
  forall z, lo <= z <= hi -> P z = true.
Proof.
  assert (G : forall n lo, forall_from P lo n = true ->
                forall z, lo <= z < lo + Z.of_nat n -> P z = true).
  { induction n as [|n IH]; intros l H z Hz; [lia | ].
    cbn [forall_from] in H. apply andb_true_iff in H. destruct H as [H0 H1].
    destruct (Z.eq_dec z l) as [->|]; [exact H0 | ].
    apply (IH (l + 1)); [exact H1 | lia]. }
  intros H z Hz. apply (G _ _ H). lia.
Qed.

Lemma f64_add_one (z : Z) :
  -1000 <= z <= 1000 ->
  F64.add (F64.of_Z z) (F64.of_Z 1) = F64.of_Z (z + 1).
Proof.
  intros H. apply same_eq.
  apply (forall_interval
           (fun z => F64.same (F64.add (F64.of_Z z) (F64.of_Z 1))
                       (F64.of_Z (z + 1))) (-1000) 1000);
    [vm_compute; reflexivity | lia].
Qed.

Lemma f64_sub_one (z : Z) :
  -1000 <= z <= 1001 ->
  F64.sub (F64.of_Z z) (F64.of_Z 1) = F64.of_Z (z - 1).
Proof.
  intros H. apply same_eq.
  apply (forall_interval
           (fun z => F64.same (F64.sub (F64.of_Z z) (F64.of_Z 1))
                       (F64.of_Z (z - 1))) (-1000) 1001);
    [vm_compute; reflexivity | lia].
Qed.

Lemma f64_add_zero (z : Z) :
  -1000 <= z <= 1001 ->
  F64.add (F64.of_Z z) (F64.of_Z 0) = F64.of_Z z
  /\ F64.sub (F64.of_Z z) (F64.of_Z 0) = F64.of_Z z.
Proof.
  intros H.
  assert (G : F64.same (F64.add (F64.of_Z z) (F64.of_Z 0)) (F64.of_Z z)
              && F64.same (F64.sub (F64.of_Z z) (F64.of_Z 0)) (F64.of_Z z)
              = true).
  { apply (forall_interval
             (fun z =>
                F64.same (F64.add (F64.of_Z z) (F64.of_Z 0)) (F64.of_Z z)
                && F64.same (F64.sub (F64.of_Z z) (F64.of_Z 0)) (F64.of_Z z))
             (-1000) 1001);
      [vm_compute; reflexivity | lia]. }
  apply andb_true_iff in G. destruct G as [G1 G2].
  split; apply same_eq; assumption.
Qed.

(** The exactness of the far corner rests on this: 3601 pixels of a
    one-degree tile are one degree, with no rounding error left. *)
Lemma tile_pixel_times_3601 :
  F64.mul (F64.of_Z 3601) tile_pixel = F64.of_Z 1.
Proof. vm_compute. reflexivity. Qed.

Lemma tile_pixel_times_0 :
  F64.mul (F64.of_Z 0) tile_pixel = F64.of_Z 0.
Proof. vm_compute. reflexivity. Qed.

(** The corners of a one-degree box under the transform of the script's
    grid. *)
Lemma unit_box_corners (w n : Z) :
  -1000 <= w <= 1000 -> -1000 <= n <= 1001 ->
  let t := from_origin w n tile_pixel tile_pixel in
  transform_apply t 0 0 = (F64.of_Z w, F64.of_Z n)
  /\ transform_apply t 3601 3601 = (F64.of_Z (w + 1), F64.of_Z (n - 1)).
Proof.
  intros Hw Hn t. unfold transform_apply, t, from_origin.
  cbn [origin_x origin_y pixel_width pixel_height].
  rewrite tile_pixel_times_0, tile_pixel_times_3601.
  destruct (f64_add_zero w) as [A0 _]; [lia | ].
  destruct (f64_add_zero n Hn) as [_ S0].
  rewrite A0, S0, f64_add_one, f64_sub_one by lia.
  split; reflexivity.
Qed.

Lemma build_transform_unit_box (b : GeoBounds) :
  east b = west b + 1 -> north b = south b + 1 ->
  build_transform b nrows ncols
  = inr (from_origin (west b) (north b) tile_pixel tile_pixel).
Proof.
  intros He Hn. unfold build_transform, truediv.
  rewrite He, Hn.
  replace (west b + 1 - west b) with 1 by lia.
  replace (south b + 1 - south b) with 1 by lia.
  reflexivity.
Qed.

(** The exactness of the far corner is a fact of the script's
    dimensions, not of the formulas of lines 57-58 at every value of
    [nrows] and [ncols]: the pixel sizes are rounded [float] quotients,
    and with 49 in place of 3601 the columns of a one-degree box end at
    [0.9999999999999999], not at the east edge 1. *)
Lemma transform_far_corner_inexact :
  exists t,
    build_transform (mkBounds 0 0 1 1) 49 49 = inr t
    /\ fst (transform_apply t 49 49) <> F64.of_Z 1.
Proof.
  eexists. split; [reflexivity | ].
  vm_compute. discriminate.
Qed.

(** The whole conversion: a tile that converts is georeferenced exactly
    at its two corners and carries the fixed nodata value. *)
Lemma hgt_to_geotiff_corners (filename : string) (file : list byte)
  (g : GeoTIFF) :
  hgt_to_geotiff filename file = inr g ->
  exists b,
    resolve_bounds filename = inr b
    /\ nodata g = -32768
    /\ transform_apply (transform g) 0 0
       = (F64.of_Z (west b), F64.of_Z (north b))
    /\ transform_apply (transform g) 3601 3601
       = (F64.of_Z (east b), F64.of_Z (south b)).
Proof.
  unfold hgt_to_geotiff, hgt_to_geotiff_dims.
  destruct (resolve_bounds filename) as [e|b] eqn:R; [discriminate | ].
  destruct (read_elevation nrows ncols file) as [e|el]; [discriminate | ].
  cbn [bind].
  destruct (resolve_bounds_unit_box _ _ R) as (He & Hn & Hw & Hs).
  rewrite (build_transform_unit_box b He Hn). cbn [bind ret].
  intros [= <-]. exists b. cbn [nodata transform].
  destruct (unit_box_corners (west b) (north b)) as [C0 C1]; [lia | lia | ].
  cbv zeta in C0, C1. rewrite C0, C1, He, Hn.
  replace (south b + 1 - 1) with (south b) by lia.
  repeat split; reflexivity.
Qed.

(** ** The heightmap *)

Example heightmap_of_design_example :
  dem_to_heightmap (-32768) [[-32768; 0; 100; 200]] = inr [[0; 0; 127; 255]].
Proof. vm_compute. reflexivity. Qed.

Example heightmap_keeps_shape :
  dem_to_heightmap (-32768) [[50; -32768]; [60; 70]]
  = inr [[0; 0]; [127; 255]].
Proof. vm_compute. reflexivity. Qed.

Lemma compress_filter (g : Z -> bool) (l : list Z) :
  Np.compress (map g l) l = filter g l.
Proof.
  induction l as [|x l IH]; [reflexivity | ].
  simpl. rewrite IH. reflexivity.
Qed.

(** The valid samples, in row-major order. *)
Lemma getmask_ne (a : list (list Z)) (v : Z) :
  Np.getmask a (Np.ne a v)
  = filter (fun x => negb (x =? v)) (List.concat a).
Proof.
  unfold Np.getmask, Np.ne.
  rewrite <- concat_map. apply compress_filter.
Qed.

Lemma valid_in (a : list (list Z)) (v s : Z) :
  In s (Np.getmask a (Np.ne a v)) <-> In s (List.concat a) /\ s <> v.
Proof.
  rewrite getmask_ne, filter_In, negb_true_iff, Z.eqb_neq. reflexivity.
Qed.

Lemma setmask_row_ne (f : Z -> Z) (v : Z) (row rest : list Z) :
  Np.setmask_row (map (fun x => negb (x =? v)) row)
    (map (fun _ => 0) row)
    (map f (filter (fun x => negb (x =? v)) row) ++ rest)
  = (map (fun x => if x =? v then 0 else f x) row, rest).
Proof.
  induction row as [|x row IH]; [reflexivity | ].
  cbn [map filter Np.setmask_row].
  destruct (x =? v); cbn [negb].
  - rewrite IH. reflexivity.
  - cbn [map app]. rewrite IH. reflexivity.
Qed.

Lemma setmask_ne (f : Z -> Z) (v : Z) (a : list (list Z)) (rest : list Z) :
  Np.setmask (Np.ne a v) (Np.zeros_like a)
    (map f (filter (fun x => negb (x =? v)) (List.concat a)) ++ rest)
  = map (map (fun x => if x =? v then 0 else f x)) a.
Proof.
  revert rest. induction a as [|row a IH]; intros rest; [reflexivity | ].
  cbn [Np.ne Np.zeros_like map List.concat Np.setmask].
  rewrite filter_app, map_app, <- app_assoc, setmask_row_ne.
  f_equal. apply IH.
Qed.

(** The whole function, sample by sample: a nodata sample gives 0 and a
    valid one the scaled value of line 34. *)
Lemma dem_to_heightmap_pointwise (nodata : Z) (a : list (list Z)) :
  dem_to_heightmap nodata a
  = match Np.amin (Np.getmask a (Np.ne a nodata)),
          Np.amax (Np.getmask a (Np.ne a nodata)) with
    | Some min_elev, Some max_elev =>
        inr (map (map (fun s => if s =? nodata then 0
                                else scale min_elev max_elev s)) a)
    | _, _ => inl EmptyValidRange
    end.
Proof.
  unfold dem_to_heightmap.
  destruct (Np.amin _) as [mn|]; [ | reflexivity].
  destruct (Np.amax _) as [mx|]; [ | reflexivity].
  cbn [lift ret bind]. unfold ret. f_equal.
  rewrite getmask_ne.
  rewrite <- (app_nil_r (map (scale mn mx) _)).
  apply setmask_ne.
Qed.

Lemma fold_min_spec (l : list Z) (x : Z) :
  let m := fold_left Z.min l x in
  (m = x \/ In m l) /\ m <= x /\ forall y, In y l -> m <= y.
Proof.
  revert x. induction l as [|z l IH]; intros x; cbn [fold_left].
  - cbv zeta. split; [left; reflexivity | split; [lia | intros y []]].
  - specialize (IH (Z.min x z)). cbv zeta in IH |- *.
    destruct IH as [I1 [I2 I3]]. split; [ | split].
    + destruct I1 as [I1 | I1]; [ | right; right; exact I1].
      destruct (Z.min_spec x z) as [[_ E] | [_ E]];
        [left | right; left]; congruence.
    + lia.
    + intros y [<- | Hy]; [lia | apply I3, Hy].
Qed.

Lemma fold_max_spec (l : list Z) (x : Z) :
  let m := fold_left Z.max l x in
  (m = x \/ In m l) /\ x <= m /\ forall y, In y l -> y <= m.
Proof.
  revert x. induction l as [|z l IH]; intros x; cbn [fold_left].
  - cbv zeta. split; [left; reflexivity | split; [lia | intros y []]].
  - specialize (IH (Z.max x z)). cbv zeta in IH |- *.
    destruct IH as [I1 [I2 I3]]. split; [ | split].
    + destruct I1 as [I1 | I1]; [ | right; right; exact I1].
      destruct (Z.max_spec x z) as [[_ E] | [_ E]];
        [right; left | left]; congruence.
    + lia.
    + intros y [<- | Hy]; [lia | apply I3, Hy].
Qed.

Lemma amin_spec (l : list Z) (m : Z) :
  Np.amin l = Some m -> In m l /\ forall y, In y l -> m <= y.
Proof.
  destruct l as [|x l]; [discriminate | ].
  cbn [Np.amin]. intros [= <-].
  destruct (fold_min_spec l x) as [I1 [I2 I3]]. split.
  - destruct I1 as [-> | I1]; [left; reflexivity | right; exact I1].
  - intros y [<- | Hy]; [exact I2 | apply I3, Hy].
Qed.

Lemma amax_spec (l : list Z) (m : Z) :
  Np.amax l = Some m -> In m l /\ forall y, In y l -> y <= m.
Proof.
  destruct l as [|x l]; [discriminate | ].
  cbn [Np.amax]. intros [= <-].
  destruct (fold_max_spec l x) as [I1 [I2 I3]]. split.
  - destruct I1 as [-> | I1]; [left; reflexivity | right; exact I1].
  - intros y [<- | Hy]; [exact I2 | apply I3, Hy].
Qed.

Lemma amin_some (l : list Z) (x : Z) : In x l -> exists m, Np.amin l = Some m.
Proof. destruct l; [intros [] | eexists; reflexivity]. Qed.

Lemma amax_some (l : list Z) (x : Z) : In x l -> exists m, Np.amax l = Some m.
Proof. destruct l; [intros [] | eexists; reflexivity]. Qed.

(** Line 34 on a range of width zero: [0 / 0] is NaN, which is no
    exception in [float64] arithmetic; NaN times 255 is NaN, and the cast
    of NaN is 0. *)
Lemma scale_flat (v : Z) : scale v v v = 0.
Proof. unfold scale, quantize. rewrite Z.sub_diag. vm_compute. reflexivity. Qed.

(** C1: when the valid samples of the grid are all equal (there is one,
    and [max_elev = min_elev]), the normalizer returns a heightmap, and
    every sample of it is 0: the valid ones by the cast of NaN, the nodata
    ones by the initial zeros. *)
Theorem dem_to_heightmap_flat (nodata : Z) (elevation : list (list Z))
  (v : Z) :
  In v (List.concat elevation) -> v <> nodata ->
  (forall s, In s (List.concat elevation) -> s <> nodata -> s = v) ->
  dem_to_heightmap nodata elevation = inr (Np.zeros_like elevation).
Proof.
  intros Hin Hv Hall. rewrite dem_to_heightmap_pointwise.
  assert (V : In v (Np.getmask elevation (Np.ne elevation nodata)))
    by (apply valid_in; split; assumption).
  destruct (amin_some _ _ V) as [mn Emn].
  destruct (amax_some _ _ V) as [mx Emx].
  rewrite Emn, Emx.
  destruct (amin_spec _ _ Emn) as [Imn _].
  destruct (amax_spec _ _ Emx) as [Imx _].
  apply valid_in in Imn, Imx.
  assert (mn = v) by (apply Hall; tauto).
  assert (mx = v) by (apply Hall; tauto). subst mn mx.
  f_equal. unfold Np.zeros_like.
  apply map_ext_in. intros row Hrow.
  apply map_ext_in. intros s Hs.
  destruct (Z.eqb_spec s nodata) as [_ | Hne]; [reflexivity | ].
  assert (s = v).
  { apply Hall; [ | exact Hne]. apply in_concat. exists row. tauto. }
  subst s. apply scale_flat.
Qed.

Lemma dem_to_heightmap_flat_witness :
  dem_to_heightmap (-32768) [[50; -32768]; [50; 50]]
  = inr [[0; 0]; [0; 0]].
Proof.
  apply (dem_to_heightmap_flat (-32768) [[50; -32768]; [50; 50]] 50).
  - simpl. tauto.
  - discriminate.
  - simpl. intros s H Hs. intuition congruence.
Defined.

(** C4: a grid whose samples all equal the nodata value has no valid
    sample, and the normalizer fails with [EmptyValidRange] (the
    [ValueError] of [min()] over a zero-size array). *)
Theorem dem_to_heightmap_all_nodata (nodata : Z)
  (elevation : list (list Z)) :
  (forall s, In s (List.concat elevation) -> s = nodata) ->
  dem_to_heightmap nodata elevation = inl EmptyValidRange.
Proof.
  intros Hall. rewrite dem_to_heightmap_pointwise.
  destruct (Np.amin _) as [mn|] eqn:Emn; [ | reflexivity].
  destruct (amin_spec _ _ Emn) as [Imn _].
  apply valid_in in Imn. destruct Imn as [I N].
  elim N. apply Hall, I.
Qed.

Lemma dem_to_heightmap_all_nodata_witness :
  dem_to_heightmap (-32768) [[-32768; -32768]; [-32768; -32768]]
  = inl EmptyValidRange.
Proof.
  apply dem_to_heightmap_all_nodata.
  simpl. intros s H. intuition congruence.
Defined.

(** C3, at a failing input: the samples -20000, 19900, 20000 span more
    than 32767, the [int16] subtractions of line 34 wrap around
    ([max_elev - min_elev] is -25536 and [19900 - min_elev] is -25636),
    and the pixel of 19900 is 255 where the design's formula gives 254. *)
Theorem scale_wraps_on_wide_range :
  dem_to_heightmap (-32768) [[-20000; 19900; 20000]] = inr [[0; 255; 255]]
  /\ Np.int16 (20000 - -20000) = -25536
  /\ Np.int16 (19900 - -20000) = -25636
  /\ floor_scale (-20000) 20000 19900 = 254.
Proof. vm_compute. repeat split; reflexivity. Qed.

(** C10, at a failing input: on a range wider than 32767 the wrapped
    subtractions put the pixels out of order: 32765 <= 32766, and their
    pixels are 254 and 126. *)
Theorem scale_not_monotone_on_wide_range :
  dem_to_heightmap (-32768) [[-32767; 32765; 32766; 32767]]
  = inr [[0; 254; 126; 255]]
  /\ Np.int16 (32767 - -32767) = -2
  /\ 32765 <= 32766
  /\ scale (-32767) 32767 32766 < scale (-32767) 32767 32765.
Proof. vm_compute. repeat split; (reflexivity || discriminate). Qed.

(** ** Rounding of the [float64] operations

    What the quantization needs of IEEE arithmetic: in the normal range a
    result is the exact one up to one unit in the last place of a 53-bit
    mantissa. *)

Lemma pow2_pos (n : Z) : 0 <= n -> 0 < 2 ^ n.
Proof. intros H. apply Z.pow_pos_nonneg; lia. Qed.

Lemma digits2_bounds (p : positive) :
  2 ^ (Zpos (digits2_pos p) - 1) <= Zpos p < 2 ^ Zpos (digits2_pos p).
Proof.
  induction p as [p IH | p IH | ]; cbn [digits2_pos].
  - rewrite Pos2Z.inj_succ, (Pos2Z.inj_xI p).
    replace (Z.succ (Zpos (digits2_pos p)) - 1) with (Zpos (digits2_pos p))
      by lia.
    rewrite Z.pow_succ_r by lia.
    assert (Q : 2 ^ Zpos (digits2_pos p) = 2 * 2 ^ (Zpos (digits2_pos p) - 1))
      by (rewrite <- Z.pow_succ_r by lia; f_equal; lia).
    lia.
  - rewrite Pos2Z.inj_succ, (Pos2Z.inj_xO p).
    replace (Z.succ (Zpos (digits2_pos p)) - 1) with (Zpos (digits2_pos p))
      by lia.
    rewrite Z.pow_succ_r by lia.
    assert (Q : 2 ^ Zpos (digits2_pos p) = 2 * 2 ^ (Zpos (digits2_pos p) - 1))
      by (rewrite <- Z.pow_succ_r by lia; f_equal; lia).
    lia.
  - simpl. lia.
Qed.

Lemma digits2_unique (p : positive) (n : Z) :
  2 ^ (n - 1) <= Zpos p < 2 ^ n -> Zpos (digits2_pos p) = n.
Proof.
  intros H. pose proof (digits2_bounds p) as B.
  set (k := Zpos (digits2_pos p)) in *.
  assert (0 < n).
  { destruct (Z.ltb_spec 0 n) as [|Hn]; [assumption | ].
    destruct (Z.eq_dec n 0) as [->|]; [simpl in H; lia | ].
    rewrite (Z.pow_neg_r 2 n) in H by lia. lia. }
  destruct (Z.lt_trichotomy k n) as [L | [E | G]]; [ | exact E | ].
  - assert (2 ^ k <= 2 ^ (n - 1)) by (apply Z.pow_le_mono_r; lia). lia.
  - assert (2 ^ n <= 2 ^ (k - 1)) by (apply Z.pow_le_mono_r; lia). lia.
Qed.

Lemma shr_1_m (mrs : shr_record) :
  0 <= shr_m mrs -> shr_m (shr_1 mrs) = shr_m mrs / 2.
Proof.
  destruct mrs as [m r s]. cbn [shr_m]. intros H.
  destruct m as [|[p|p|]|p]; cbn [shr_1 shr_m]; try lia; try reflexivity.
  - rewrite (Pos2Z.inj_xI p). apply Z.div_unique with 1; lia.
  - rewrite (Pos2Z.inj_xO p). apply Z.div_unique with 0; lia.
Qed.

Lemma iter_shr_1_m (p : positive) :
  forall mrs, 0 <= shr_m mrs ->
    shr_m (iter_pos shr_1 p mrs) = shr_m mrs / 2 ^ Zpos p.
Proof.
  induction p as [p IH | p IH | ]; intros mrs H; cbn [iter_pos].
  - assert (H1 : 0 <= shr_m (shr_1 mrs))
      by (rewrite shr_1_m by exact H; apply Z.div_pos; lia).
    assert (H2 : 0 <= shr_m (iter_pos shr_1 p (shr_1 mrs)))
      by (rewrite IH by exact H1; apply Z.div_pos; [exact H1 | lia]).
    rewrite IH, IH, shr_1_m by assumption.
    assert (0 < 2 ^ Zpos p) by (apply pow2_pos; lia).
    rewrite !Z.div_div by lia. f_equal.
    rewrite (Pos2Z.inj_xI p).
    replace (2 * Zpos p + 1) with (1 + Zpos p + Zpos p) by lia.
    rewrite !Z.pow_add_r by lia. change (2 ^ 1) with 2. ring.
  - assert (H2 : 0 <= shr_m (iter_pos shr_1 p mrs))
      by (rewrite IH by exact H; apply Z.div_pos; [exact H | lia]).
    rewrite IH, IH by assumption.
    assert (0 < 2 ^ Zpos p) by (apply pow2_pos; lia).
    rewrite !Z.div_div by lia. f_equal.
    rewrite (Pos2Z.inj_xO p).
    replace (2 * Zpos p) with (Zpos p + Zpos p) by lia.
    rewrite !Z.pow_add_r by lia. ring.
  - rewrite shr_1_m by exact H. reflexivity.
Qed.

Lemma shr_m_value (mrs : shr_record) (e n : Z) :
  0 <= shr_m mrs -> 0 <= n ->
  shr_m (fst (shr mrs e n)) = shr_m mrs / 2 ^ n /\ snd (shr mrs e n) = e + n.
Proof.
  intros H Hn. destruct n as [|p|p]; cbn [shr fst snd].
  - rewrite Z.div_1_r. lia.
  - split; [apply iter_shr_1_m, H | reflexivity].
  - lia.
Qed.

Lemma round_nearest_even_cases (m : Z) (l : location) :
  round_nearest_even m l = m \/ round_nearest_even m l = m + 1.
Proof.
  destruct l as [|[]]; cbn [round_nearest_even]; try tauto.
  destruct (Z.even m); tauto.
Qed.

Lemma shr_record_of_loc_m (m : Z) (l : location) :
  shr_m (shr_record_of_loc m l) = m.
Proof. destruct l as [|[]]; reflexivity. Qed.

(** Rounding in the normal range, up to one unit in the last place. *)
Lemma binary_round_aux_normal (mx : positive) (ex : Z) (lx : location) :
  let n := Zpos (digits2_pos mx) in
  53 <= n -> -1074 <= ex + (n - 53) -> ex + (n - 53) + 1 <= 971 ->
  exists (m : positive) (e M : Z),
    binary_round_aux 53 1024 false (Zpos mx) ex lx = S754_finite false m e
    /\ (M = Zpos mx / 2 ^ (n - 53) \/ M = Zpos mx / 2 ^ (n - 53) + 1)
    /\ 2 ^ 52 <= Zpos m < 2 ^ 53
    /\ ((e = ex + (n - 53) /\ Zpos m = M)
        \/ (e = ex + (n - 53) + 1 /\ 2 * Zpos m = M)).
Proof.
  intros n Hn Hlo Hhi.
  pose proof (digits2_bounds mx) as B. fold n in B.
  unfold binary_round_aux.
  (* first shift *)
  unfold shr_fexp.
  assert (F1 : fexp 53 1024 (Zdigits2 (Zpos mx) + ex) - ex = n - 53).
  { unfold fexp, emin. cbn [Zdigits2]. fold n. lia. }
  rewrite F1.
  destruct (shr_m_value (shr_record_of_loc (Zpos mx) lx) ex (n - 53))
    as [V1 V2]; [rewrite shr_record_of_loc_m; lia | lia | ].
  rewrite shr_record_of_loc_m in V1.
  destruct (shr (shr_record_of_loc (Zpos mx) lx) ex (n - 53)) as [mrs1 e1].
  cbn [fst snd] in V1, V2. subst e1.
  set (M0 := Zpos mx / 2 ^ (n - 53)) in *.
  assert (R0 : 2 ^ 52 <= M0 < 2 ^ 53).
  { unfold M0.
    assert (P : 2 ^ (n - 1) = 2 ^ 52 * 2 ^ (n - 53))
      by (rewrite <- Z.pow_add_r by lia; f_equal; lia).
    assert (P' : 2 ^ n = 2 ^ 53 * 2 ^ (n - 53))
      by (rewrite <- Z.pow_add_r by lia; f_equal; lia).
    assert (0 < 2 ^ (n - 53)) by (apply Z.pow_pos_nonneg; lia).
    split.
    - apply Z.div_le_lower_bound; lia.
    - apply Z.div_lt_upper_bound; lia. }
  set (M := round_nearest_even (shr_m mrs1) (loc_of_shr_record mrs1)).
  assert (RM : M = M0 \/ M = M0 + 1).
  { unfold M. rewrite <- V1. apply round_nearest_even_cases. }
  (* second shift *)
  assert (Mpos : 0 < M) by lia.
  destruct M as [|pM|pM] eqn:EM; try lia.
  cbn [Zdigits2 shr_record_of_loc].
  destruct (Z.eq_dec (Zpos pM) (2 ^ 53)) as [Top | NotTop].
  - (* the mantissa reached 2^53 *)
    assert (D : Zpos (digits2_pos pM) = 54)
      by (apply digits2_unique; rewrite Top; simpl; lia).
    rewrite D.
    replace (fexp 53 1024 (54 + (ex + (n - 53))) - (ex + (n - 53))) with 1
      by (unfold fexp, emin; lia).
    cbn [shr iter_pos]. 
    assert (S : shr_m (shr_1 {| shr_m := Zpos pM; shr_r := false; shr_s := false |})
                = 2 ^ 52).
    { rewrite shr_1_m by (cbn [shr_m]; lia). cbn [shr_m]. rewrite Top.
      reflexivity. }
    destruct (shr_m (shr_1 _)) as [|m2|m2] eqn:E2; try (simpl in S; lia).
    replace (ex + (n - 53) + 1 <=? 1024 - 53) with true
      by (symmetry; apply Z.leb_le; lia).
    exists m2, (ex + (n - 53) + 1), (Zpos pM).
    split; [reflexivity | ]. split; [exact RM | ].
    split; [rewrite S; simpl; lia | ].
    right. split; [reflexivity | ]. rewrite S, Top. reflexivity.
  - assert (D : Zpos (digits2_pos pM) = 53)
      by (apply digits2_unique; simpl; lia).
    rewrite D.
    replace (fexp 53 1024 (53 + (ex + (n - 53))) - (ex + (n - 53))) with 0
      by (unfold fexp, emin; lia).
    cbn [shr shr_m].
    replace (ex + (n - 53) <=? 1024 - 53) with true
      by (symmetry; apply Z.leb_le; lia).
    exists pM, (ex + (n - 53)), (Zpos pM).
    split; [reflexivity | ]. split; [exact RM | ].
    split; [lia | ]. left. split; reflexivity.
Qed.

Lemma of_Z_small (z : Z) :
  1 <= z <= 32767 ->
  exists m e,
    F64.of_Z z = S754_finite false m e
    /\ 2 ^ 52 <= Zpos m < 2 ^ 53
    /\ -52 <= e <= -38
    /\ Zpos m = z * 2 ^ (- e).
Proof.
  intros H.
  assert (C : normal_check z (F64.of_Z z) = true).
  { apply (forall_interval (fun z => normal_check z (F64.of_Z z)) 1 32767);
      [vm_compute; reflexivity | lia]. }
  unfold normal_check in C.
  destruct (F64.of_Z z) as [ | | |[] m e]; try discriminate C.
  repeat (apply andb_true_iff in C; destruct C as [C ?]).
  exists m, e. split; [reflexivity | ].
  rewrite Z.leb_le in *. rewrite Z.ltb_lt in *. rewrite Z.eqb_eq in *.
  repeat split; assumption.
Qed.

Lemma div_core_normal (m1 m2 : positive) (e1 e2 : Z) :
  2 ^ 52 <= Zpos m1 < 2 ^ 53 -> 2 ^ 52 <= Zpos m2 < 2 ^ 53 ->
  -900 <= e1 - e2 ->
  SFdiv_core_binary 53 1024 (Zpos m1) e1 (Zpos m2) e2
  = (Zpos m1 * 2 ^ 53 / Zpos m2, e1 - e2 - 53,
     new_location (Zpos m2) ((Zpos m1 * 2 ^ 53) mod Zpos m2)).
Proof.
  intros H1 H2 He.
  unfold SFdiv_core_binary. cbn [Zdigits2].
  rewrite (digits2_unique m1 53), (digits2_unique m2 53) by (simpl; lia).
  replace (Z.min (fexp 53 1024 (53 + e1 - (53 + e2))) (e1 - e2))
    with (e1 - e2 - 53) by (unfold fexp, emin; lia).
  replace (e1 - e2 - (e1 - e2 - 53)) with 53 by lia.
  cbv zeta iota beta.
  rewrite Z.shiftl_mul_pow2 by lia.
  unfold Z.div, Z.modulo.
  destruct (Z.div_eucl (Zpos m1 * 2 ^ 53) (Zpos m2)) as [q r].
  reflexivity.
Qed.

Lemma div_normal (m1 m2 : positive) (e1 e2 : Z) :
  2 ^ 52 <= Zpos m1 < 2 ^ 53 -> 2 ^ 52 <= Zpos m2 < 2 ^ 53 ->
  -900 <= e1 - e2 <= 900 ->
  exists (m : positive) (e u : Z),
    F64.div (S754_finite false m1 e1) (S754_finite false m2 e2)
    = S754_finite false m e
    /\ 2 ^ 52 <= Zpos m < 2 ^ 53
    /\ 0 <= u <= 2
    /\ e = e1 - e2 - 53 + u
    /\ - (3 * Zpos m2) <= Zpos m * 2 ^ u * Zpos m2 - Zpos m1 * 2 ^ 53
       <= 3 * Zpos m2.
Proof.
  intros H1 H2 He.
  unfold F64.div, SFdiv. rewrite div_core_normal by (assumption || lia).
  cbn [xorb].
  pose proof (Z.div_mod (Zpos m1 * 2 ^ 53) (Zpos m2) ltac:(lia)) as DM.
  pose proof (Z.mod_pos_bound (Zpos m1 * 2 ^ 53) (Zpos m2) ltac:(lia)) as MB.
  set (q := Zpos m1 * 2 ^ 53 / Zpos m2) in *.
  set (r := (Zpos m1 * 2 ^ 53) mod Zpos m2) in *.
  assert (Q : 2 ^ 52 <= q < 2 ^ 54).
  { change (2 ^ 52) with 4503599627370496 in *.
    change (2 ^ 53) with 9007199254740992 in *.
    change (2 ^ 54) with 18014398509481984. nia. }
  destruct q as [|pq|pq] eqn:Eq; try (simpl in Q; lia).
  pose proof (digits2_bounds pq) as DB.
  set (n := Zpos (digits2_pos pq)) in *.
  assert (N : n = 53 \/ n = 54).
  { destruct (Z.lt_trichotomy n 53) as [L | [E | G]]; [ | lia | ].
    - assert (2 ^ n <= 2 ^ 52) by (apply Z.pow_le_mono_r; lia). lia.
    - destruct (Z.eq_dec n 54); [lia | ].
      assert (2 ^ 54 <= 2 ^ (n - 1)) by (apply Z.pow_le_mono_r; lia). lia. }
  destruct (binary_round_aux_normal pq (e1 - e2 - 53) (new_location (Zpos m2) r))
    as (m & e & M & E & HM & Rm & Hcase); fold n; try lia.
  fold n in HM, Hcase.
  exists m, e, (e - (e1 - e2 - 53)).
  split; [exact E | ]. split; [exact Rm | ].
  split; [lia | ]. split; [lia | ].
  change (2 ^ 53) with 9007199254740992 in *.
  destruct N as [N | N]; rewrite N in *.
  - change (53 - 53) with 0 in *. change (2 ^ 0) with 1 in *.
    rewrite Z.div_1_r in HM.
    destruct Hcase as [[-> Hm] | [-> Hm]].
    + replace (e1 - e2 - 53 + 0 - (e1 - e2 - 53)) with 0 by lia.
      change (2 ^ 0) with 1. nia.
    + replace (e1 - e2 - 53 + 0 + 1 - (e1 - e2 - 53)) with 1 by lia.
      change (2 ^ 1) with 2. nia.
  - change (54 - 53) with 1 in *. change (2 ^ 1) with 2 in *.
    pose proof (Z.div_mod (Zpos pq) 2 ltac:(lia)) as DM2.
    pose proof (Z.mod_pos_bound (Zpos pq) 2 ltac:(lia)) as MB2.
    destruct Hcase as [[-> Hm] | [-> Hm]].
    + replace (e1 - e2 - 53 + 1 - (e1 - e2 - 53)) with 1 by lia.
      change (2 ^ 1) with 2. nia.
    + replace (e1 - e2 - 53 + 1 + 1 - (e1 - e2 - 53)) with 2 by lia.
      change (2 ^ 2) with 4. nia.
Qed.

(** *** The transform of every grid *)







Lemma of_Z_255 : F64.of_Z 255 = S754_finite false 8972014882652160 (-45).
Proof. reflexivity. Qed.

Lemma mul_255 (m : positive) (e : Z) :
  2 ^ 52 <= Zpos m < 2 ^ 53 -> -900 <= e <= 900 ->
  exists (m3 : positive) (e3 w : Z),
    F64.mul (S754_finite false m e) (F64.of_Z 255) = S754_finite false m3 e3
    /\ 2 ^ 52 <= Zpos m3 < 2 ^ 53
    /\ 52 <= w <= 54
    /\ e3 = e - 45 + w
    /\ - 2 ^ 53 <= Zpos m3 * 2 ^ w - Zpos m * (255 * 2 ^ 45) <= 2 ^ 53.
Proof.
  intros Hm He. rewrite of_Z_255. unfold F64.mul, SFmul. cbn [xorb].
  set (c := 8972014882652160%positive).
  assert (C : Zpos c = 255 * 2 ^ 45) by reflexivity.
  assert (P : 2 ^ 104 <= Zpos (m * c) < 2 ^ 106).
  { rewrite Pos2Z.inj_mul, C.
    change (2 ^ 52) with 4503599627370496 in *.
    change (2 ^ 53) with 9007199254740992 in *.
    change (2 ^ 45) with 35184372088832.
    change (2 ^ 104) with 20282409603651670423947251286016.
    change (2 ^ 106) with 81129638414606681695789005144064. lia. }
  pose proof (digits2_bounds (m * c)) as DB.
  set (n := Zpos (digits2_pos (m * c))) in *.
  assert (N : n = 105 \/ n = 106).
  { destruct (Z.lt_trichotomy n 105) as [L | [E | G]]; [ | lia | ].
    - assert (2 ^ n <= 2 ^ 104) by (apply Z.pow_le_mono_r; lia). lia.
    - destruct (Z.eq_dec n 106); [lia | ].
      assert (2 ^ 106 <= 2 ^ (n - 1)) by (apply Z.pow_le_mono_r; lia). lia. }
  destruct (binary_round_aux_normal (m * c) (e + -45) loc_Exact)
    as (m3 & e3 & M & E & HM & Rm & Hcase); fold n; try lia.
  fold n in HM, Hcase.
  exists m3, e3, (e3 - (e - 45)).
  split; [exact E | ]. split; [exact Rm | ].
  split; [lia | ]. split; [lia | ].
  rewrite <- C, <- Pos2Z.inj_mul.
  set (p := Zpos (m * c)) in *.
  change (2 ^ 53) with 9007199254740992 in *.
  destruct N as [N | N]; rewrite N in *.
  - change (105 - 53) with 52 in *.
    pose proof (Z.div_mod p (2 ^ 52) ltac:(lia)) as DM2.
    pose proof (Z.mod_pos_bound p (2 ^ 52) ltac:(lia)) as MB2.
    change (2 ^ 52) with 4503599627370496 in *.
    destruct Hcase as [[-> Hm3] | [-> Hm3]].
    + replace (e + -45 + 52 - (e - 45)) with 52 by lia.
      change (2 ^ 52) with 4503599627370496. lia.
    + replace (e + -45 + 52 + 1 - (e - 45)) with 53 by lia.
      change (2 ^ 53) with 9007199254740992. lia.
  - change (106 - 53) with 53 in *.
    pose proof (Z.div_mod p (2 ^ 53) ltac:(lia)) as DM2.
    pose proof (Z.mod_pos_bound p (2 ^ 53) ltac:(lia)) as MB2.
    change (2 ^ 53) with 9007199254740992 in *.
    destruct Hcase as [[-> Hm3] | [-> Hm3]].
    + replace (e + -45 + 53 - (e - 45)) with 53 by lia.
      change (2 ^ 53) with 9007199254740992. lia.
    + replace (e + -45 + 53 + 1 - (e - 45)) with 54 by lia.
      change (2 ^ 54) with 18014398509481984. lia.
Qed.

(** The arithmetic of the two rounding errors against the gap [1 / r]. *)
Lemma gap_beats_rounding (d r k m m3 A B E3 U2 W2 : Z) :
  1 <= d < r -> r <= 32767 -> 0 <= k ->
  k * r + 1 <= 255 * d <= (k + 1) * r - 1 ->
  274877906944 <= A <= 4503599627370496 ->
  274877906944 <= B <= 4503599627370496 ->
  0 < E3 -> 1 <= U2 <= 4 -> 0 < W2 ->
  E3 * B * (U2 * W2) = A * 316912650057057350374175801344 ->
  - (3 * (r * B)) <= m * U2 * (r * B) - d * A * 9007199254740992
    <= 3 * (r * B) ->
  - 9007199254740992 <= m3 * W2 - m * (255 * 35184372088832)
    <= 9007199254740992 ->
  k * E3 <= m3 < (k + 1) * E3.
Proof.
  intros Hd Hr Hk Hgap PA PB PE PU PW F4 Bd Bm.
  set (C := 255 * 35184372088832) in *.
  set (G := 316912650057057350374175801344) in *.
  set (rB := r * B) in *.
  assert (PrB : 0 < rB <= 32767 * 4503599627370496) by (unfold rB; nia).
  set (P := U2 * rB).
  assert (PP : 0 < P <= 4 * rB) by (unfold P; nia).
  set (T := m * U2 * rB) in *.
  assert (ET : m * C * P = C * T) by (unfold T, P; ring).
  assert (PWP : 0 < W2 * P) by (apply Z.mul_pos_pos; lia).
  (* the gap, scaled *)
  set (AG := A * G).
  assert (PAG : (3 * C + 4 * 9007199254740992) * rB < AG).
  { assert (X1 : (3 * C + 4 * 9007199254740992) * rB
                 <= (3 * C + 4 * 9007199254740992)
                    * (32767 * 4503599627370496))
      by (apply Z.mul_le_mono_nonneg_l; unfold C; lia).
    assert (X2 : 274877906944 * G <= AG)
      by (unfold AG; apply Z.mul_le_mono_nonneg_r; unfold G; lia).
    unfold C, G in *. lia. }
  assert (EQ : forall x, x * E3 * (W2 * P) = x * r * AG).
  { intros x. unfold P, rB, AG. rewrite <- F4. ring. }
  assert (D1 : (k * r + 1) * AG <= 255 * d * AG)
    by (apply Z.mul_le_mono_nonneg_r; unfold AG, G; lia).
  assert (D2 : 255 * d * AG <= ((k + 1) * r - 1) * AG)
    by (apply Z.mul_le_mono_nonneg_r; unfold AG, G; lia).
  assert (ED : 255 * d * AG = C * (d * A * 9007199254740992))
    by (unfold AG, C, G; ring).
  assert (B1 : C * (d * A * 9007199254740992 - 3 * rB) <= C * T)
    by (apply Z.mul_le_mono_nonneg_l; unfold C; lia).
  assert (B2 : C * T <= C * (d * A * 9007199254740992 + 3 * rB))
    by (apply Z.mul_le_mono_nonneg_l; unfold C; lia).
  assert (M1 : (m * C - 9007199254740992) * P <= m3 * W2 * P)
    by (apply Z.mul_le_mono_nonneg_r; lia).
  assert (M2 : m3 * W2 * P <= (m * C + 9007199254740992) * P)
    by (apply Z.mul_le_mono_nonneg_r; lia).
  assert (P53 : 9007199254740992 * P <= 4 * 9007199254740992 * rB) by lia.
  split.
  - apply (Z.mul_le_mono_pos_r _ _ (W2 * P) PWP).
    rewrite EQ.
    replace (m3 * (W2 * P)) with (m3 * W2 * P) by ring.
    replace ((m * C - 9007199254740992) * P)
      with (C * T - 9007199254740992 * P) in M1 by (rewrite <- ET; ring).
    replace (k * r * AG) with ((k * r + 1) * AG - AG) by ring.
    replace (C * (d * A * 9007199254740992 - 3 * rB))
      with (255 * d * AG - 3 * C * rB) in B1 by (rewrite ED; ring).
    replace ((3 * C + 4 * 9007199254740992) * rB)
      with (3 * C * rB + 4 * 9007199254740992 * rB) in PAG by ring.
    lia.
  - apply (Z.mul_lt_mono_pos_r (W2 * P) _ _ PWP).
    rewrite EQ.
    replace (m3 * (W2 * P)) with (m3 * W2 * P) by ring.
    replace ((m * C + 9007199254740992) * P)
      with (C * T + 9007199254740992 * P) in M2 by (rewrite <- ET; ring).
    replace ((k + 1) * r * AG) with (((k + 1) * r - 1) * AG + AG) by ring.
    replace (C * (d * A * 9007199254740992 + 3 * rB))
      with (255 * d * AG + 3 * C * rB) in B2 by (rewrite ED; ring).
    replace ((3 * C + 4 * 9007199254740992) * rB)
      with (3 * C * rB + 4 * 9007199254740992 * rB) in PAG by ring.
    lia.
Qed.

(** The quantization away from the integers: when [255 * d / r] is not
    an integer it lies at least [1 / r] from the next one, far more than
    the rounding of the quotient and of the product can move it. *)
Lemma quantize_between (d r : Z) :
  1 <= d < r -> r <= 32767 -> (255 * d) mod r <> 0 ->
  quantize d r = 255 * d / r.
Proof.
  intros Hd Hr Hmod.
  destruct (of_Z_small d) as (m1 & e1 & E1 & R1 & X1 & V1); [lia | ].
  destruct (of_Z_small r) as (m2 & e2 & E2 & R2 & X2 & V2); [lia | ].
  destruct (div_normal m1 m2 e1 e2) as (m & e & u & Ed & Rm & Hu & He & Bd);
    try assumption; try lia.
  destruct (mul_255 m e) as (m3 & e3 & w & Em & Rm3 & Hw & He3 & Bm);
    try assumption; try lia.
  unfold quantize. rewrite E1, E2, Ed, Em.
  unfold Np.astype_uint8, F64.trunc.
  destruct e3 as [|p3|p3]; try lia.
  rewrite Z.shiftr_div_pow2 by lia.
  set (k := 255 * d / r).
  pose proof (Z.div_mod (255 * d) r ltac:(lia)) as DM.
  pose proof (Z.mod_pos_bound (255 * d) r ltac:(lia)) as MB.
  fold k in DM.
  assert (K : 0 <= k <= 254).
  { split; [apply Z.div_pos; lia | ].
    assert (k < 255); [ | lia].
    apply Z.div_lt_upper_bound; lia. }
  assert (T : Zpos m3 / 2 ^ Zpos p3 = k).
  { assert (PE : 0 < 2 ^ Zpos p3) by (apply pow2_pos; lia).
    assert (G : k * 2 ^ Zpos p3 <= Zpos m3 < (k + 1) * 2 ^ Zpos p3).
    { assert (PA : 274877906944 <= 2 ^ (- e1) <= 4503599627370496)
        by (split; [apply (Z.pow_le_mono_r 2 38 (- e1)) |
                    apply (Z.pow_le_mono_r 2 (- e1) 52)]; lia).
      assert (PB : 274877906944 <= 2 ^ (- e2) <= 4503599627370496)
        by (split; [apply (Z.pow_le_mono_r 2 38 (- e2)) |
                    apply (Z.pow_le_mono_r 2 (- e2) 52)]; lia).
      assert (PU : 1 <= 2 ^ u <= 4)
        by (split; [apply (Z.pow_le_mono_r 2 0 u) |
                    apply (Z.pow_le_mono_r 2 u 2)]; lia).
      assert (PW : 0 < 2 ^ w) by (apply pow2_pos; lia).
      assert (F4 : 2 ^ Zpos p3 * 2 ^ (- e2) * (2 ^ u * 2 ^ w)
                   = 2 ^ (- e1) * 316912650057057350374175801344).
      { change 316912650057057350374175801344 with (2 ^ 98).
        rewrite <- !Z.pow_add_r by lia. f_equal. lia. }
      assert (Hgap : k * r + 1 <= 255 * d <= (k + 1) * r - 1) by lia.
      rewrite V1, V2 in Bd.
      apply (gap_beats_rounding d r k (Zpos m) (Zpos m3)
               (2 ^ (- e1)) (2 ^ (- e2)) (2 ^ Zpos p3) (2 ^ u) (2 ^ w)
               Hd Hr (proj1 K) Hgap PA PB PE PU PW F4).
      - change 9007199254740992 with (2 ^ 53). exact Bd.
      - exact Bm. }
    symmetry. apply Z.div_unique with (Zpos m3 - k * 2 ^ Zpos p3).
    - left. lia.
    - ring. }
  rewrite T.
  replace ((- 2 ^ 31 <=? k) && (k <? 2 ^ 31)) with true
    by (symmetry; apply andb_true_iff; split;
        [apply Z.leb_le | apply Z.ltb_lt]; simpl; lia).
  apply Z.mod_small. lia.
Qed.

Lemma exact_quotients_checked :
  forall_from exact_quotients_check 1 255 = true.
Proof. vm_compute. reflexivity. Qed.

Lemma new_location_even_scaled (y k t : Z) :
  0 < t ->
  new_location_even (y * t) (k * t) = new_location_even y k.
Proof.
  intros Ht. unfold new_location_even.
  destruct (Z.eqb_spec (k * t) 0) as [E | N], (Z.eqb_spec k 0) as [E' | N'];
    try reflexivity; try nia.
  f_equal.
  destruct (Z.compare_spec (2 * (k * t)) (y * t)),
    (Z.compare_spec (2 * k) y); try reflexivity; nia.
Qed.

(** The division of two normal numbers whose mantissas are a common
    multiple of [x] and [y]. *)
Lemma div_scaled (m1 m2 : positive) (e1 e2 x y t : Z) :
  2 ^ 52 <= Zpos m1 < 2 ^ 53 -> 2 ^ 52 <= Zpos m2 < 2 ^ 53 ->
  -900 <= e1 - e2 ->
  0 < t -> 0 < y -> Zpos m1 = x * t -> Zpos m2 = y * t ->
  Z.even (Zpos m2) = true ->
  F64.div (S754_finite false m1 e1) (S754_finite false m2 e2)
  = binary_round_aux 53 1024 false (x * 2 ^ 53 / y) (e1 - e2 - 53)
      (new_location_even y ((x * 2 ^ 53) mod y)).
Proof.
  intros R1 R2 He Ht Hy E1 E2 Ev.
  unfold F64.div, SFdiv. rewrite div_core_normal by assumption.
  cbn [xorb]. unfold new_location. rewrite Ev.
  rewrite E1, E2.
  replace (x * t * 2 ^ 53) with (x * 2 ^ 53 * t) by ring.
  rewrite Z.div_mul_cancel_r by lia.
  rewrite Z.mul_mod_distr_r by lia.
  rewrite new_location_even_scaled by exact Ht.
  reflexivity.
Qed.

Lemma quantize_zero (r : Z) : 1 <= r <= 32767 -> quantize 0 r = 0.
Proof.
  intros Hr. destruct (of_Z_small r Hr) as (m & e & E & _).
  unfold quantize. rewrite E. reflexivity.
Qed.

Lemma quantize_at_integer (d r : Z) :
  1 <= r <= 32767 -> 0 <= d <= r -> (255 * d) mod r = 0 ->
  quantize d r = 255 * d / r.
Proof.
  intros Hr Hd Hmod.
  destruct (Z.eq_dec d 0) as [-> | Hd0].
  { rewrite quantize_zero by exact Hr. reflexivity. }
  (* [d = j * u] and [r = g * u] with [g] a divisor of 255 *)
  set (g := Z.gcd r 255).
  assert (Gpos : 0 < g).
  { pose proof (Z.gcd_nonneg r 255).
    assert (g <> 0) by (unfold g; intros E; apply Z.gcd_eq_0_l in E; lia).
    lia. }
  destruct (Z.gcd_divide_l r 255) as [u Eu]. fold g in Eu.
  destruct (Z.gcd_divide_r r 255) as [st Est]. fold g in Est.
  assert (Du : r / g = u) by (rewrite Eu; apply Z.div_mul; lia).
  assert (Dst : 255 / g = st) by (rewrite Est; apply Z.div_mul; lia).
  assert (Cop : Z.gcd u st = 1).
  { rewrite <- Du, <- Dst. apply Z.gcd_div_gcd; [lia | reflexivity]. }
  assert (Upos : 0 < u) by nia.
  apply Z.mod_divide in Hmod; [ | lia].
  destruct Hmod as [q Eq].
  assert (Div : (u | st * d)).
  { exists q. apply (Z.mul_reg_l _ _ g); [lia | ].
    replace (g * (st * d)) with (255 * d) by (rewrite Est; ring).
    rewrite Eq, Eu. ring. }
  apply Z.gauss in Div; [ | exact Cop].
  destruct Div as [j Ej].
  assert (J : 1 <= j <= g).
  { assert (0 * u < j * u) by lia.
    assert (j * u <= g * u) by lia.
    apply Z.mul_lt_mono_pos_r in H; [ | exact Upos].
    apply Z.mul_le_mono_pos_r in H0; [ | exact Upos]. lia. }
  assert (G255 : 1 <= g <= 255).
  { split; [lia | ]. apply Z.divide_pos_le; [lia | ].
    exists st. exact Est. }
  (* the check at [g], [j] *)
  pose proof (forall_interval exact_quotients_check 1 255
                exact_quotients_checked g G255) as C.
  unfold exact_quotients_check in C.
  replace (255 mod g =? 0) with true in C
    by (symmetry; apply Z.eqb_eq; rewrite Est; apply Z.mod_mul; lia).
  replace (Z.to_nat g) with (Z.to_nat (g - 1 + 1)) in C by (f_equal; lia).
  pose proof (forall_interval _ 1 g C j J) as Cj. cbv beta in Cj.
  (* the two mantissas *)
  destruct (of_Z_small d) as (m1 & e1 & E1 & R1 & X1 & V1); [lia | ].
  destruct (of_Z_small r Hr) as (m2 & e2 & E2 & R2 & X2 & V2).
  set (c := e2 - e1).
  assert (Hc : -14 <= c <= 15 - 1) by (unfold c; lia).
  pose proof (forall_interval _ (-14) 14 Cj c Hc) as Cc.
  unfold exact_ratio_check in Cc. cbv zeta in Cc.
  assert (PA : 0 < 2 ^ (- e1)) by (apply pow2_pos; lia).
  assert (PB : 0 < 2 ^ (- e2)) by (apply pow2_pos; lia).
  assert (Ev : Z.even (Zpos m2) = true).
  { rewrite V2. replace (- e2) with (1 + (- e2 - 1)) by lia.
    rewrite Z.pow_add_r by lia. change (2 ^ 1) with 2.
    rewrite Z.mul_assoc, (Z.mul_comm r 2), <- Z.mul_assoc.
    apply Z.even_mul. }
  assert (S : exists t, 0 < t /\ Zpos m1 = ratio_num j c * t
                        /\ Zpos m2 = ratio_den g c * t
                        /\ 0 < ratio_den g c).
  { unfold ratio_num, ratio_den.
    destruct (Z.leb_spec 0 c) as [Pc | Nc].
    - exists (u * 2 ^ (- e2)). split; [nia | ].
      replace (- e1) with (c + - e2) in V1 by (unfold c; lia).
      rewrite Z.pow_add_r in V1 by lia.
      split; [rewrite V1, Ej; ring | ].
      split; [rewrite V2, Eu; ring | lia].
    - exists (u * 2 ^ (- e1)). split; [nia | ].
      replace (- e2) with (- c + - e1) in V2 by (unfold c; lia).
      rewrite Z.pow_add_r in V2 by lia.
      assert (0 < 2 ^ (- c)) by (apply pow2_pos; lia).
      split; [rewrite V1, Ej; ring | ].
      split; [rewrite V2, Eu; ring | nia]. }
  destruct S as (t & Ht & S1 & S2 & Hy).
  replace ((ratio_num j c <? 2 * ratio_den g c)
           && (ratio_den g c <? 2 * ratio_num j c)) with true in Cc.
  2:{ symmetry. apply andb_true_iff.
      change (2 ^ 52) with 4503599627370496 in *.
      change (2 ^ 53) with 9007199254740992 in *.
      split; apply Z.ltb_lt; nia. }
  apply Z.eqb_eq in Cc.
  unfold quantize. rewrite E1, E2.
  rewrite (div_scaled m1 m2 e1 e2 _ _ t R1 R2 ltac:(lia) Ht Hy S1 S2 Ev).
  replace (e1 - e2 - 53) with (- c - 53) by (unfold c; lia).
  unfold quantize_ratio in Cc. cbv zeta in Cc.
  change F64.prec with 53 in Cc. change F64.emax with 1024 in Cc.
  rewrite Cc, Dst.
  apply Z.div_unique_exact; [lia | ].
  rewrite Ej, Eu, Est. ring.
Qed.

(** Line 34 after the subtractions, on a range that fits [int16]: the
    integer part of the exact quotient. *)
Lemma quantize_floor (d r : Z) :
  1 <= r <= 32767 -> 0 <= d <= r -> quantize d r = 255 * d / r.
Proof.
  intros Hr Hd.
  destruct (Z.eq_dec ((255 * d) mod r) 0) as [E | N].
  - apply quantize_at_integer; assumption.
  - assert (d <> 0) by (intros ->; apply N; reflexivity).
    assert (d <> r).
    { intros ->. apply N. apply Z.mod_mul. lia. }
    apply quantize_between; lia.
Qed.

Lemma scale_floor (min_elev max_elev s : Z) :
  min_elev < max_elev -> max_elev - min_elev <= 32767 ->
  min_elev <= s <= max_elev ->
  scale min_elev max_elev s = floor_scale min_elev max_elev s.
Proof.
  intros Hlt Hw Hs. unfold scale, floor_scale.
  rewrite !int16_id by (unfold Np.is_int16; lia).
  rewrite quantize_floor by lia. f_equal. ring.
Qed.

Lemma floor_scale_monotone (min_elev max_elev a b : Z) :
  min_elev < max_elev -> a <= b ->
  floor_scale min_elev max_elev a <= floor_scale min_elev max_elev b.
Proof.
  intros Hlt Hab. unfold floor_scale.
  apply Z.div_le_mono; lia.
Qed.

Lemma floor_scale_range (min_elev max_elev s : Z) :
  min_elev < max_elev -> min_elev <= s <= max_elev ->
  0 <= floor_scale min_elev max_elev s <= 255.
Proof.
  intros Hlt Hs. unfold floor_scale. split.
  - apply Z.div_pos; lia.
  - apply Z.div_le_upper_bound; nia.
Qed.

(** X16: while the valid range of the grid fits [int16] (at most 32767
    from [min_elev] to [max_elev]) no subtraction wraps, every valid
    sample gets the integer part of
    [(s - min_elev) / (max_elev - min_elev) * 255], computed exactly in
    spite of the two roundings, and every nodata sample gets 0. *)
Theorem dem_to_heightmap_narrow_range (nodata : Z)
  (elevation : list (list Z)) (min_elev max_elev : Z) :
  Np.amin (Np.getmask elevation (Np.ne elevation nodata)) = Some min_elev ->
  Np.amax (Np.getmask elevation (Np.ne elevation nodata)) = Some max_elev ->
  min_elev < max_elev -> max_elev - min_elev <= 32767 ->
  dem_to_heightmap nodata elevation
  = inr (map (map (fun s => if s =? nodata then 0
                            else floor_scale min_elev max_elev s))
           elevation).
Proof.
  intros Emn Emx Hlt Hw. rewrite dem_to_heightmap_pointwise, Emn, Emx.
  f_equal.
  destruct (amin_spec _ _ Emn) as [_ Lo]. destruct (amax_spec _ _ Emx) as [_ Hi].
  apply map_ext_in. intros row Hrow.
  apply map_ext_in. intros s Hs.
  destruct (Z.eqb_spec s nodata) as [_ | Hne]; [reflexivity | ].
  assert (V : In s (Np.getmask elevation (Np.ne elevation nodata))).
  { apply valid_in. split; [ | exact Hne]. apply in_concat. exists row. tauto. }
  apply scale_floor; [assumption .. | ].
  split; [apply Lo | apply Hi]; exact V.
Qed.

(** X17: on such a grid the pixels follow the order of the samples: of
    two valid samples the larger never gets the smaller pixel. *)
Theorem scale_monotone_narrow_range (min_elev max_elev a b : Z) :
  min_elev < max_elev -> max_elev - min_elev <= 32767 ->
  min_elev <= a -> a <= b -> b <= max_elev ->
  scale min_elev max_elev a <= scale min_elev max_elev b.
Proof.
  intros Hlt Hw Ha Hab Hb.
  rewrite !scale_floor by lia.
  apply floor_scale_monotone; assumption.
Qed.

(** * Further properties

    ** The path of the tile file *)

Example filename_of_path : filename_of "data/srtm/S27E152.hgt" = "S27E152"%string.
Proof. reflexivity. Qed.

Example filename_of_bare : filename_of "S27E152.hgt" = "S27E152"%string.
Proof. reflexivity. Qed.

Example filename_of_inner : filename_of "a/S27.hgtE152.hgt" = "S27E152"%string.
Proof. reflexivity. Qed.

Example filename_of_single_pass : filename_of ".h.hgtgt" = ".hgt"%string.
Proof. reflexivity. Qed.

Example filename_of_trailing_slash : filename_of "data/" = ""%string.
Proof. reflexivity. Qed.

Example split_example : Py.split "/" "a//b/" = ["a"; ""; "b"; ""]%string.
Proof. reflexivity. Qed.

Lemma last_cons {A} (x d : A) (l : list A) : last (x :: l) d = last l x.
Proof.
  revert x d. induction l as [|y l IH]; intros x d; [reflexivity | ].
  change (last (x :: y :: l) d) with (last (y :: l) d).
  rewrite (IH y d), (IH y x). reflexivity.
Qed.

Lemma last_default {A} (x y : A) (l : list A) :
  l <> [] -> last l x = last l y.
Proof.
  destruct l as [|z l]; [congruence | ]. intros _.
  rewrite !last_cons. reflexivity.
Qed.

Lemma last_item_split (sep : ascii) (s : string) :
  Py.last_item (Py.split sep s)
  = Some (last (snd (Py.split_pieces sep s)) (fst (Py.split_pieces sep s))).
Proof.
  unfold Py.split. destruct (Py.split_pieces sep s) as [p ps]. reflexivity.
Qed.

Lemma split_pieces_sep (sep : ascii) (a b : string) :
  snd (Py.split_pieces sep (a ++ String sep b)) <> [].
Proof.
  induction a as [|c a IH]; cbn [String.append Py.split_pieces].
  - destruct (Py.split_pieces sep b) as [p ps].
    rewrite Ascii.eqb_refl. discriminate.
  - destruct (Py.split_pieces sep (a ++ String sep b)) as [p ps].
    cbn [snd] in IH. destruct (Ascii.eqb c sep); [discriminate | exact IH].
Qed.

(** Only what follows the last separator reaches the last piece. *)
Lemma last_item_split_app (sep : ascii) (a b : string) :
  Py.last_item (Py.split sep (a ++ String sep b))
  = Py.last_item (Py.split sep b).
Proof.
  rewrite !last_item_split. f_equal.
  induction a as [|c a IH]; cbn [String.append Py.split_pieces].
  - destruct (Py.split_pieces sep b) as [p ps].
    rewrite Ascii.eqb_refl. cbn [fst snd]. apply last_cons.
  - pose proof (split_pieces_sep sep a b) as N.
    destruct (Py.split_pieces sep (a ++ String sep b)) as [p ps].
    cbn [fst snd] in *.
    destruct (Ascii.eqb c sep); cbn [fst snd].
    + rewrite last_cons. exact IH.
    + rewrite <- IH. apply last_default, N.
Qed.

Lemma split_pieces_plain (sep : ascii) (s : string) :
  Py.contains sep s = false -> Py.split_pieces sep s = (s, []).
Proof.
  induction s as [|c s IH]; [reflexivity | ].
  cbn [Py.contains Py.split_pieces]. intros H.
  apply orb_false_iff in H. destruct H as [Hc Hs].
  rewrite (IH Hs), Hc. reflexivity.
Qed.

Lemma split_pieces_clean (sep : ascii) (s : string) :
  Py.contains sep (fst (Py.split_pieces sep s)) = false
  /\ Forall (fun q => Py.contains sep q = false)
       (snd (Py.split_pieces sep s)).
Proof.
  induction s as [|c s [IH1 IH2]]; cbn [Py.split_pieces].
  - split; [reflexivity | constructor].
  - destruct (Py.split_pieces sep s) as [p ps]. cbn [fst snd] in *.
    destruct (Ascii.eqb c sep) eqn:E; cbn [fst snd].
    + split; [reflexivity | constructor; assumption].
    + split; [ | exact IH2]. cbn [Py.contains]. rewrite E, IH1. reflexivity.
Qed.

Lemma replace_from_keeps (old : string) (c : ascii) (s : string) :
  forall skip,
    Py.contains c (Py.replace_from old "" skip s) = true ->
    Py.contains c s = true.
Proof.
  induction s as [|a s IH]; intros skip; cbn [Py.replace_from Py.contains].
  - discriminate.
  - destruct skip as [|k].
    + destruct (prefix old (String a s)).
      * cbn [String.append]. intros H. rewrite (IH _ H). apply orb_true_r.
      * cbn [Py.contains]. intros H. apply orb_true_iff in H.
        destruct H as [H | H]; [rewrite H; reflexivity | ].
        rewrite (IH _ H). apply orb_true_r.
    + intros H. rewrite (IH _ H). apply orb_true_r.
Qed.

Lemma replace_hgt_plain (stem t : string) :
  Py.contains "." stem = false ->
  Py.replace ".hgt" "" (stem ++ t) = (stem ++ Py.replace ".hgt" "" t)%string.
Proof.
  unfold Py.replace.
  induction stem as [|c stem IH]; [reflexivity | ].
  cbn [Py.contains String.append Py.replace_from]. intros H.
  apply orb_false_iff in H. destruct H as [Hc Hs].
  replace (prefix ".hgt" (String c (stem ++ t))) with false.
  - rewrite (IH Hs). reflexivity.
  - cbn [prefix]. destruct (ascii_dec "." c) as [E | _]; [ | reflexivity].
    subst c. discriminate Hc.
Qed.

Lemma contains_app (c : ascii) (a b : string) :
  Py.contains c (a ++ b) = Py.contains c a || Py.contains c b.
Proof.
  induction a as [|x a IH]; [reflexivity | ].
  cbn [String.append Py.contains]. rewrite IH. apply orb_assoc.
Qed.

Lemma filename_of_name (name : string) :
  Py.contains "/" name = false ->
  filename_of name = Py.replace ".hgt" "" name.
Proof.
  intros H. unfold filename_of. rewrite last_item_split.
  rewrite (split_pieces_plain _ _ H). reflexivity.
Qed.

Lemma filename_of_dir (dir name : string) :
  filename_of (dir ++ String "/" name) = filename_of name.
Proof. unfold filename_of. rewrite last_item_split_app. reflexivity. Qed.

(** X1: for a file [<stem>.hgt], in any directory or in none, whose stem
    contains no slash and no dot, the tile identifier is the stem. *)
Theorem filename_of_stem (dir stem : string) :
  Py.contains "/" stem = false -> Py.contains "." stem = false ->
  filename_of (dir ++ "/" ++ stem ++ ".hgt") = stem
  /\ filename_of (stem ++ ".hgt") = stem.
Proof.
  intros Hs Hd.
  assert (N : filename_of (stem ++ ".hgt") = stem).
  { rewrite filename_of_name
      by (rewrite contains_app, Hs; reflexivity).
    rewrite replace_hgt_plain by exact Hd.
    change (Py.replace ".hgt" "" ".hgt") with ""%string.
    apply append_nil_r. }
  split; [ | exact N].
  change ("/" ++ stem ++ ".hgt")%string with (String "/" (stem ++ ".hgt")).
  rewrite filename_of_dir. exact N.
Qed.

Lemma filename_of_stem_witness :
  filename_of ("data/srtm" ++ "/" ++ "S27E152" ++ ".hgt") = "S27E152"%string
  /\ filename_of ("S27E152" ++ ".hgt") = "S27E152"%string.
Proof.
  apply (filename_of_stem "data/srtm" "S27E152"); reflexivity.
Defined.

(** X2: the directories of the path do not reach the conversion: only
    what follows the last slash does. *)
Theorem hgt_to_geotiff_path_directory (dir name : string)
  (file : list byte) :
  hgt_to_geotiff_path (dir ++ "/" ++ name) file
  = hgt_to_geotiff_path name file.
Proof.
  unfold hgt_to_geotiff_path.
  change ("/" ++ name)%string with (String "/" name).
  rewrite filename_of_dir. reflexivity.
Qed.

(** X3: the tile identifier never contains a slash: directories do not
    reach the resolver. *)
Theorem filename_of_no_slash (hgt_file : string) :
  Py.contains "/" (filename_of hgt_file) = false.
Proof.
  unfold filename_of. rewrite last_item_split.
  destruct (split_pieces_clean "/" hgt_file) as [C1 C2].
  destruct (Py.split_pieces "/" hgt_file) as [p ps]. cbn [fst snd] in *.
  assert (L : Py.contains "/" (last ps p) = false).
  { clear - C1 C2. revert p C1. induction C2 as [|q ps Hq _ IH]; intros p C1.
    - exact C1.
    - rewrite last_cons. apply IH, Hq. }
  destruct (Py.contains "/" (Py.replace ".hgt" "" (last ps p))) eqn:E;
    [ | reflexivity].
  apply replace_from_keeps in E. congruence.
Qed.

(** ** The resolver *)

(** X4: every box the resolver returns is a one-degree cell with integer
    corners: east is west + 1 and north is south + 1, the west edge lies
    within 999 degrees of zero and the south edge within 99. *)
Theorem resolve_bounds_one_degree (id : string) (b : GeoBounds) :
  resolve_bounds id = inr b ->
  east b = west b + 1 /\ north b = south b + 1
  /\ Z.abs (west b) <= 999 /\ Z.abs (south b) <= 99.
Proof.
  intros H. destruct (resolve_bounds_unit_box id b H) as (E & N & W & S).
  repeat split; lia.
Qed.

Lemma resolve_bounds_one_degree_witness :
  east (mkBounds 152 (-27) 153 (-26)) = 152 + 1
  /\ north (mkBounds 152 (-27) 153 (-26)) = -27 + 1
  /\ Z.abs 152 <= 999 /\ Z.abs (-27) <= 99.
Proof.
  apply (resolve_bounds_one_degree "S27E152"). reflexivity.
Defined.

(** X5: the two hemisphere characters count only through the tests
    [== 'S'] and [== 'W']: any other first character reads as N and any
    other fourth character as E. *)
Theorem resolve_bounds_hemispheres (h1 d1 d2 h2 : ascii) (rest : string) :
  resolve_bounds (String h1 (String d1 (String d2 (String h2 rest))))
  = resolve_bounds
      (String (if Ascii.eqb h1 "S" then "S" else "N")
         (String d1 (String d2
            (String (if Ascii.eqb h2 "W" then "W" else "E") rest))))%char.
Proof.
  unfold resolve_bounds, Py.index, Py.slice.
  cbn [String.get Nat.sub substring].
  destruct (Py.int (String d1 _)) as [lat_val|]; [ | reflexivity].
  destruct (Py.int (substring 0 3 rest)) as [lon_val|]; [ | reflexivity].
  cbn [lift ret bind].
  destruct (Ascii.eqb h1 "S"), (Ascii.eqb h2 "W"); reflexivity.
Qed.

(** X6: the resolver reads the first seven characters only: whatever
    follows them changes neither the box nor a failure. *)
Theorem resolve_bounds_first_seven (id rest : string) :
  String.length id = 7%nat ->
  resolve_bounds (id ++ rest) = resolve_bounds id.
Proof.
  intros H.
  destruct id as [|c0 [|c1 [|c2 [|c3 [|c4 [|c5 [|c6 [|c7 r]]]]]]]];
    try discriminate H.
  unfold resolve_bounds, Py.index, Py.slice.
  cbn [String.append String.get Nat.sub substring].
  destruct rest; reflexivity.
Qed.

Lemma resolve_bounds_first_seven_witness :
  resolve_bounds ("S27E152" ++ "_v2.bak") = resolve_bounds "S27E152".
Proof.
  apply (resolve_bounds_first_seven "S27E152" "_v2.bak"). reflexivity.
Defined.

(** ** The decoder *)

Lemma read_elevation_inr (nr nc : nat) (file : list byte)
  (g : list (list Z)) :
  read_elevation nr nc file = inr g ->
  Z.of_nat (length file) / 2 = Z.of_nat nr * Z.of_nat nc
  /\ g = rev (Np.rows_of nr nc (Np.fromfile_be_i2 file)).
Proof.
  intros H.
  destruct (Z.eq_dec (Z.of_nat (length file) / 2)
              (Z.of_nat nr * Z.of_nat nc)) as [E | N].
  - rewrite (read_elevation_value nr nc file E) in H.
    injection H as <-. split; [exact E | reflexivity].
  - exfalso. unfold read_elevation, Np.reshape in H.
    rewrite fromfile_length in H.
    destruct (Z.eqb_spec (Z.of_nat (length file) / 2)
                (Z.of_nat nr * Z.of_nat nc)); [contradiction | discriminate].
Qed.

Lemma fromfile_range (file : list byte) :
  Forall Np.is_int16 (Np.fromfile_be_i2 file).
Proof.
  induction file as [ | x | x y l IH] using list_pair_ind;
    cbn [Np.fromfile_be_i2]; constructor; [ | exact IH].
  apply int16_range.
Qed.

Lemma rows_of_rows {A} (P : A -> Prop) (nr nc : nat) (l : list A) :
  Forall P l -> length l = (nr * nc)%nat ->
  Forall (fun row => length row = nc /\ Forall P row) (Np.rows_of nr nc l).
Proof.
  revert l. induction nr as [|k IH]; intros l HP HL; cbn [Np.rows_of].
  - constructor.
  - rewrite <- (firstn_skipn nc l) in HP. apply Forall_app in HP.
    destruct HP as [HP1 HP2].
    constructor.
    + split; [rewrite length_firstn; lia | exact HP1].
    + apply IH; [exact HP2 | rewrite length_skipn; lia].
Qed.

(** X7: a decoded grid has [nrows] rows of [ncols] samples each, and
    every sample is a 16-bit signed value. *)
Theorem read_elevation_shape (nr nc : nat) (file : list byte)
  (g : list (list Z)) :
  read_elevation nr nc file = inr g ->
  length g = nr
  /\ Forall (fun row => length row = nc /\ Forall Np.is_int16 row) g.
Proof.
  intros H. apply read_elevation_inr in H. destruct H as [E ->].
  split.
  - rewrite length_rev. apply rows_of_length.
  - apply Forall_rev, rows_of_rows.
    + apply fromfile_range.
    + apply fromfile_count, E.
Qed.

Lemma read_elevation_shape_witness :
  length [[3; -32768]; [1; 2]] = 2%nat
  /\ Forall (fun row => length row = 2%nat /\ Forall Np.is_int16 row)
       [[3; -32768]; [1; 2]].
Proof.
  apply (read_elevation_shape 2 2
           [x00; x01; x00; x02; x00; x03; x80; x00]).
  reflexivity.
Defined.

Lemma be_i2_inj (a b a' b' : byte) :
  Np.be_i2 a b = Np.be_i2 a' b' -> a = a' /\ b = b'.
Proof.
  unfold Np.be_i2, Np.int16. intros H.
  pose proof (Byte.to_N_bounded a). pose proof (Byte.to_N_bounded b).
  pose proof (Byte.to_N_bounded a'). pose proof (Byte.to_N_bounded b').
  set (u := 256 * Z.of_N (Byte.to_N a) + Z.of_N (Byte.to_N b)) in *.
  set (v := 256 * Z.of_N (Byte.to_N a') + Z.of_N (Byte.to_N b')) in *.
  assert (Hu : 0 <= u < 65536) by (unfold u; lia).
  assert (Hv : 0 <= v < 65536) by (unfold v; lia).
  assert (M : (u + 32768) mod 65536 = (v + 32768) mod 65536) by lia.
  assert (UV : u = v).
  { destruct (Z.lt_ge_cases u 32768), (Z.lt_ge_cases v 32768).
    - rewrite !Z.mod_small in M by lia. lia.
    - rewrite (Z.mod_small (u + 32768)) in M by lia.
      replace (v + 32768) with (v - 32768 + 1 * 65536) in M by lia.
      rewrite Z.mod_add, Z.mod_small in M by lia. lia.
    - rewrite (Z.mod_small (v + 32768)) in M by lia.
      replace (u + 32768) with (u - 32768 + 1 * 65536) in M by lia.
      rewrite Z.mod_add, Z.mod_small in M by lia. lia.
    - replace (u + 32768) with (u - 32768 + 1 * 65536) in M by lia.
      replace (v + 32768) with (v - 32768 + 1 * 65536) in M by lia.
      rewrite !Z.mod_add, !Z.mod_small in M by lia. lia. }
  assert (Ea : Byte.to_N a = Byte.to_N a') by (unfold u, v in UV; lia).
  assert (Eb : Byte.to_N b = Byte.to_N b') by (unfold u, v in UV; lia).
  split.
  - assert (S : Some a = Some a')
      by (rewrite <- (Byte.of_to_N a), <- (Byte.of_to_N a'), Ea; reflexivity).
    congruence.
  - assert (S : Some b = Some b')
      by (rewrite <- (Byte.of_to_N b), <- (Byte.of_to_N b'), Eb; reflexivity).
    congruence.
Qed.

Lemma fromfile_inj (f1 : list byte) :
  forall f2,
    Nat.even (length f1) = true -> length f1 = length f2 ->
    Np.fromfile_be_i2 f1 = Np.fromfile_be_i2 f2 -> f1 = f2.
Proof.
  induction f1 as [ | x | x y l IH] using list_pair_ind; intros f2 Ev L H.
  - destruct f2; [reflexivity | discriminate L].
  - discriminate Ev.
  - destruct f2 as [|x' [|y' l']]; try discriminate L.
    cbn [Np.fromfile_be_i2] in H. injection H as H1 H2.
    apply be_i2_inj in H1. destruct H1 as [-> ->].
    f_equal. f_equal. apply IH; [exact Ev | | exact H2].
    simpl in L. lia.
Qed.

(** X8: decoding loses nothing: two buffers of [nrows * ncols * 2] bytes
    that decode to the same grid are the same buffer. *)
Theorem read_elevation_injective (nr nc : nat) (f1 f2 : list byte) :
  Z.of_nat (length f1) = 2 * Z.of_nat nr * Z.of_nat nc ->
  Z.of_nat (length f2) = 2 * Z.of_nat nr * Z.of_nat nc ->
  read_elevation nr nc f1 = read_elevation nr nc f2 ->
  f1 = f2.
Proof.
  intros L1 L2 H.
  assert (C1 : Z.of_nat (length f1) / 2 = Z.of_nat nr * Z.of_nat nc).
  { rewrite L1. replace (2 * Z.of_nat nr * Z.of_nat nc)
      with (Z.of_nat nr * Z.of_nat nc * 2) by lia. apply Z.div_mul. lia. }
  assert (C2 : Z.of_nat (length f2) / 2 = Z.of_nat nr * Z.of_nat nc).
  { rewrite L2. replace (2 * Z.of_nat nr * Z.of_nat nc)
      with (Z.of_nat nr * Z.of_nat nc * 2) by lia. apply Z.div_mul. lia. }
  rewrite (read_elevation_value _ _ _ C1), (read_elevation_value _ _ _ C2) in H.
  injection H as H. apply rev_inj in H.
  apply (f_equal (@List.concat Z)) in H.
  rewrite !concat_rows_of in H by (apply fromfile_count; assumption).
  apply fromfile_inj; [ | lia | exact H].
  replace (length f1) with (2 * (nr * nc))%nat by lia.
  apply Nat.even_spec. exists (nr * nc)%nat. reflexivity.
Qed.

Lemma read_elevation_injective_witness :
  [x00; x01; xff; xff] = [x00; x01; xff; xff].
Proof.
  apply (read_elevation_injective 1 2); reflexivity.
Defined.

Lemma fromfile_odd_byte (file : list byte) (b : byte) :
  Nat.even (length file) = true ->
  Np.fromfile_be_i2 (file ++ [b]) = Np.fromfile_be_i2 file.
Proof.
  induction file as [ | x | x y l IH] using list_pair_ind; intros Ev.
  - reflexivity.
  - discriminate Ev.
  - cbn [app Np.fromfile_be_i2]. rewrite IH by exact Ev. reflexivity.
Qed.

(** X9: one byte after the last complete sample is never read: appended
    to a buffer of even length it changes neither the decoded grid nor a
    failure. *)
Theorem read_elevation_odd_byte (nr nc : nat) (file : list byte) (b : byte) :
  Nat.even (length file) = true ->
  read_elevation nr nc (file ++ [b]) = read_elevation nr nc file.
Proof.
  intros Ev. unfold read_elevation.
  rewrite fromfile_odd_byte by exact Ev. reflexivity.
Qed.

Lemma read_elevation_odd_byte_witness :
  read_elevation 1 2 ([x00; x01; xff; xff] ++ [x07])
  = read_elevation 1 2 [x00; x01; xff; xff].
Proof.
  apply (read_elevation_odd_byte 1 2 [x00; x01; xff; xff] x07). reflexivity.
Defined.

(** ** The whole conversion *)

(** The conversion, case by case. *)
Lemma hgt_to_geotiff_cases (id : string) (file : list byte) :
  hgt_to_geotiff id file
  = match resolve_bounds id with
    | inl _ => inl MalformedIdentifier
    | inr b =>
        if Z.of_nat (length file) / 2 =? Z.of_nat nrows * Z.of_nat ncols
        then inr (mkGeoTIFF nrows ncols
                    (from_origin (west b) (north b) tile_pixel tile_pixel)
                    (-32768)
                    (rev (Np.rows_of nrows ncols (Np.fromfile_be_i2 file))))
        else inl TruncatedInput
    end.
Proof.
  unfold hgt_to_geotiff, hgt_to_geotiff_dims.
  destruct (resolve_bounds id) as [e | b] eqn:R.
  - rewrite (resolve_bounds_error id e R). reflexivity.
  - cbn [bind].
    destruct (resolve_bounds_unit_box id b R) as (He & Hn & _).
    destruct (Z.eqb_spec (Z.of_nat (length file) / 2) (Z.of_nat nrows * Z.of_nat ncols))
      as [E | N].
    + rewrite (read_elevation_value nrows ncols file E). cbn [bind].
      rewrite (build_transform_unit_box b He Hn). reflexivity.
    + unfold read_elevation, Np.reshape. rewrite fromfile_length.
      destruct (Z.eqb_spec (Z.of_nat (length file) / 2) (Z.of_nat nrows * Z.of_nat ncols));
        [contradiction | reflexivity].
Qed.

(** X10: the conversion of a tile file succeeds exactly when the
    identifier taken from its path resolves and the file holds 3601 x 3601
    complete samples. *)
Theorem hgt_to_geotiff_succeeds_iff (hgt_file : string) (file : list byte) :
  succeeds (hgt_to_geotiff_path hgt_file file)
  <-> (succeeds (resolve_bounds (filename_of hgt_file))
       /\ Z.of_nat (length file) / 2 = Z.of_nat nrows * Z.of_nat ncols).
Proof.
  unfold hgt_to_geotiff_path. rewrite hgt_to_geotiff_cases. unfold succeeds.
  destruct (resolve_bounds (filename_of hgt_file)) as [e | b].
  - split; [intros [g H]; discriminate | intros [[b H] _]; discriminate].
  - destruct (Z.eqb_spec (Z.of_nat (length file) / 2) (Z.of_nat nrows * Z.of_nat ncols))
      as [E | N].
    + split; [intros _; split; [eexists; reflexivity | exact E] | ].
      intros _. eexists. reflexivity.
    + split; [intros [g H]; discriminate | intros [_ E]; contradiction].
Qed.

(** X11: a conversion fails in two ways only, and the identifier comes
    first: [MalformedIdentifier] when the identifier does not resolve,
    whatever the file holds, and [TruncatedInput] when it resolves and the
    sample count is wrong. *)
Theorem hgt_to_geotiff_failure (hgt_file : string) (file : list byte)
  (e : error) :
  hgt_to_geotiff_path hgt_file file = inl e ->
  (e = MalformedIdentifier
   /\ resolve_bounds (filename_of hgt_file) = inl MalformedIdentifier)
  \/ (e = TruncatedInput
      /\ succeeds (resolve_bounds (filename_of hgt_file))
      /\ Z.of_nat (length file) / 2 <> Z.of_nat nrows * Z.of_nat ncols).
Proof.
  unfold hgt_to_geotiff_path. rewrite hgt_to_geotiff_cases.
  destruct (resolve_bounds (filename_of hgt_file)) as [e' | b] eqn:R.
  - intros [= <-]. left. split; [reflexivity | ].
    rewrite (resolve_bounds_error _ _ R). reflexivity.
  - destruct (Z.eqb_spec (Z.of_nat (length file) / 2) (Z.of_nat nrows * Z.of_nat ncols))
      as [E | N]; [discriminate | ].
    intros [= <-]. right. split; [reflexivity | ].
    split; [exists b; reflexivity | exact N].
Qed.

Lemma hgt_to_geotiff_failure_witness :
  (TruncatedInput = MalformedIdentifier
   /\ resolve_bounds (filename_of "tiles/S27E152.hgt")
      = inl MalformedIdentifier)
  \/ (TruncatedInput = TruncatedInput
      /\ succeeds (resolve_bounds (filename_of "tiles/S27E152.hgt"))
      /\ Z.of_nat (length [x00; x01]) / 2 <> Z.of_nat nrows * Z.of_nat ncols).
Proof.
  apply (hgt_to_geotiff_failure "tiles/S27E152.hgt" [x00; x01]).
  reflexivity.
Defined.

(** What a successful conversion returned, for any grid dimensions. *)
Lemma hgt_to_geotiff_dims_inr (nr nc : nat) (id : string)
  (file : list byte) (g : GeoTIFF) :
  hgt_to_geotiff_dims nr nc id file = inr g ->
  exists b,
    resolve_bounds id = inr b
    /\ g = mkGeoTIFF nr nc
             (from_origin (west b) (north b)
                (F64.div (F64.of_Z 1) (F64.of_Z (Z.of_nat nc)))
                (F64.div (F64.of_Z 1) (F64.of_Z (Z.of_nat nr))))
             (-32768)
             (rev (Np.rows_of nr nc (Np.fromfile_be_i2 file)))
    /\ Z.of_nat (length file) / 2 = Z.of_nat nr * Z.of_nat nc.
Proof.
  unfold hgt_to_geotiff_dims.
  destruct (resolve_bounds id) as [e | b] eqn:R; [discriminate | ].
  cbn [bind].
  destruct (read_elevation nr nc file) as [e | el] eqn:D; [discriminate | ].
  apply read_elevation_inr in D. destruct D as [C ->].
  cbn [bind].
  destruct (resolve_bounds_unit_box id b R) as (He & Hn & _).
  unfold build_transform, truediv. rewrite He, Hn.
  replace (west b + 1 - west b) with 1 by lia.
  replace (south b + 1 - south b) with 1 by lia.
  destruct (Z.of_nat nc =? 0); [discriminate | ]. cbn [bind ret].
  destruct (Z.of_nat nr =? 0); [discriminate | ]. cbn [bind ret].
  unfold ret. intros H. exists b.
  split; [reflexivity | ]. split; [congruence | exact C].
Qed.

(** X12: every converted tile is a raster of [nrows] rows of [ncols]
    16-bit samples, as its declared height and width say, with nodata
    -32768, and its transform has the origin at the north-west corner of
    the tile's box and pixels of 1/ncols by 1/nrows of a degree (1/3601
    both ways for the script's grid). *)
Theorem hgt_to_geotiff_raster (nr nc : nat) (id : string)
  (file : list byte) (g : GeoTIFF) :
  hgt_to_geotiff_dims nr nc id file = inr g ->
  exists b,
    resolve_bounds id = inr b
    /\ origin_x (transform g) = F64.of_Z (west b)
    /\ origin_y (transform g) = F64.of_Z (north b)
    /\ pixel_width (transform g)
       = F64.div (F64.of_Z 1) (F64.of_Z (Z.of_nat nc))
    /\ pixel_height (transform g)
       = F64.div (F64.of_Z 1) (F64.of_Z (Z.of_nat nr))
    /\ nodata g = -32768
    /\ height g = nr /\ width g = nc
    /\ length (band1 g) = height g
    /\ Forall (fun row => length row = width g /\ Forall Np.is_int16 row)
         (band1 g).
Proof.
  intros H. apply hgt_to_geotiff_dims_inr in H.
  destruct H as (b & R & -> & C). exists b.
  cbn [transform nodata height width band1 from_origin
       origin_x origin_y pixel_width pixel_height].
  split; [exact R | ]. do 7 (split; [reflexivity | ]). split.
  - rewrite length_rev. apply rows_of_length.
  - apply Forall_rev, rows_of_rows;
      [apply fromfile_range | apply fromfile_count, C].
Qed.

Lemma hgt_to_geotiff_raster_witness :
  exists b,
    resolve_bounds "S27E152" = inr b
    /\ F64.of_Z 152 = F64.of_Z (west b)
    /\ F64.of_Z (-26) = F64.of_Z (north b)
    /\ F64.div (F64.of_Z 1) (F64.of_Z 2) = F64.div (F64.of_Z 1) (F64.of_Z 2)
    /\ F64.div (F64.of_Z 1) (F64.of_Z 1) = F64.div (F64.of_Z 1) (F64.of_Z 1)
    /\ -32768 = -32768
    /\ 1%nat = 1%nat /\ 2%nat = 2%nat
    /\ length [[1; -1]] = 1%nat
    /\ Forall (fun row => length row = 2%nat /\ Forall Np.is_int16 row)
         [[1; -1]].
Proof.
  apply (hgt_to_geotiff_raster 1 2 "S27E152" [x00; x01; xff; xff]
           (mkGeoTIFF 1 2
              (from_origin 152 (-26)
                 (F64.div (F64.of_Z 1) (F64.of_Z 2))
                 (F64.div (F64.of_Z 1) (F64.of_Z 1)))
              (-32768) [[1; -1]])).
  reflexivity.
Defined.

(** ** The normalizer *)

(** X13: the normalizer succeeds exactly when the grid has a sample that
    is not the nodata value; whatever those samples are, it raises
    nothing else. *)
Theorem dem_to_heightmap_succeeds_iff (nodata : Z)
  (elevation : list (list Z)) :
  succeeds (dem_to_heightmap nodata elevation)
  <-> exists s, In s (List.concat elevation) /\ s <> nodata.
Proof.
  rewrite dem_to_heightmap_pointwise. unfold succeeds. split.
  - intros [hm H].
    destruct (Np.amin _) as [mn|] eqn:Emn; [ | discriminate].
    destruct (amin_spec _ _ Emn) as [I _]. apply valid_in in I.
    exists mn. exact I.
  - intros [s Hs]. apply valid_in in Hs.
    destruct (amin_some _ _ Hs) as [mn ->].
    destruct (amax_some _ _ Hs) as [mx ->].
    eexists. reflexivity.
Qed.

Lemma astype_uint8_range (x : F64.float64) : 0 <= Np.astype_uint8 x <= 255.
Proof.
  unfold Np.astype_uint8.
  destruct (F64.trunc x) as [t|]; [ | lia].
  destruct ((- 2 ^ 31 <=? t) && (t <? 2 ^ 31)); [ | lia].
  pose proof (Z.mod_pos_bound t 256). lia.
Qed.

(** X14: a heightmap has the shape of its grid, each pixel is a function
    of the sample at its place alone (for the grid's minimum and
    maximum), that function sends the nodata value to 0, and every pixel
    lies in 0..255, also where the subtractions wrap around. *)
Theorem dem_to_heightmap_pixels (nodata : Z) (elevation : list (list Z))
  (heightmap : list (list Z)) :
  dem_to_heightmap nodata elevation = inr heightmap ->
  exists f : Z -> Z,
    heightmap = map (map f) elevation
    /\ f nodata = 0
    /\ forall s, 0 <= f s <= 255.
Proof.
  rewrite dem_to_heightmap_pointwise.
  destruct (Np.amin _) as [mn|]; [ | discriminate].
  destruct (Np.amax _) as [mx|]; [ | discriminate].
  intros [= <-].
  exists (fun s => if s =? nodata then 0 else scale mn mx s).
  split; [reflexivity | ]. split.
  - rewrite Z.eqb_refl. reflexivity.
  - intros s. destruct (s =? nodata); [lia | ].
    apply astype_uint8_range.
Qed.

Lemma dem_to_heightmap_pixels_witness :
  exists f : Z -> Z,
    [[0; 255; 255]] = map (map f) [[-20000; 19900; 20000]]
    /\ f (-32768) = 0
    /\ forall s, 0 <= f s <= 255.
Proof.
  apply (dem_to_heightmap_pixels (-32768) [[-20000; 19900; 20000]]).
  vm_compute. reflexivity.
Defined.

Lemma binary_round_aux_sign (m e : Z) (l : location) :
  binary_round_aux 53 1024 true m e l
  = SFopp (binary_round_aux 53 1024 false m e l).
Proof.
  unfold binary_round_aux.
  destruct (shr_fexp 53 1024 m e l) as [mrs e'].
  destruct (shr_fexp 53 1024 _ e' loc_Exact) as [mrs' e''].
  destruct (shr_m mrs') as [|p|p]; try reflexivity.
  destruct (e'' <=? 1024 - 53); reflexivity.
Qed.

Lemma of_Z_opp (p : positive) :
  F64.of_Z (Zneg p) = SFopp (F64.of_Z (Zpos p)).
Proof.
  unfold F64.of_Z, binary_normalize, binary_round.
  destruct (shl_align p 0 _) as [mz ez].
  apply binary_round_aux_sign.
Qed.

(** The [int16] values other than zero are normal numbers. *)
Lemma of_Z_int16 (r : Z) :
  Np.is_int16 r -> r <> 0 ->
  exists s m e,
    F64.of_Z r = S754_finite s m e /\ 2 ^ 52 <= Zpos m < 2 ^ 53
    /\ -52 <= e <= -37.
Proof.
  unfold Np.is_int16. intros H N.
  assert (P : forall z, 1 <= z <= 32768 ->
                exists m e, F64.of_Z z = S754_finite false m e
                            /\ 2 ^ 52 <= Zpos m < 2 ^ 53 /\ -52 <= e <= -37).
  { intros z Hz. destruct (Z.eq_dec z 32768) as [-> | Hz'].
    - exists 4503599627370496%positive, (-37).
      split; [reflexivity | ]. split; [simpl; lia | lia].
    - destruct (of_Z_small z) as (m & e & E & R & X & _); [lia | ].
      exists m, e. repeat split; lia || assumption. }
  destruct r as [|p|p]; [congruence | | ].
  - destruct (P (Zpos p)) as (m & e & E & R & X); [lia | ].
    exists false, m, e. repeat split; lia || assumption.
  - destruct (P (Zpos p)) as (m & e & E & R & X); [lia | ].
    exists true, m, e. rewrite of_Z_opp, E.
    repeat split; lia || reflexivity.
Qed.

(** A number divided by itself is one, with no rounding. *)
Lemma div_self (s : bool) (m : positive) (e : Z) :
  2 ^ 52 <= Zpos m < 2 ^ 53 ->
  F64.div (S754_finite s m e) (S754_finite s m e) = F64.of_Z 1.
Proof.
  intros R. unfold F64.div, SFdiv.
  rewrite div_core_normal by (assumption || lia).
  rewrite xorb_nilpotent.
  rewrite (Z.mul_comm (Zpos m)), Z.div_mul, Z.mod_mul by lia.
  replace (new_location (Zpos m) 0) with loc_Exact
    by (unfold new_location; destruct (Z.even (Zpos m)); reflexivity).
  replace (e - e - 53) with (-53) by lia.
  reflexivity.
Qed.

Lemma quantize_self (r : Z) :
  Np.is_int16 r -> r <> 0 -> quantize r r = 255.
Proof.
  intros H N. destruct (of_Z_int16 r H N) as (s & m & e & E & R & _).
  unfold quantize. rewrite E, div_self by exact R. reflexivity.
Qed.

Lemma quantize_zero_int16 (r : Z) :
  Np.is_int16 r -> r <> 0 -> quantize 0 r = 0.
Proof.
  intros H N. destruct (of_Z_int16 r H N) as (s & m & e & E & _).
  unfold quantize. rewrite E. destruct s; reflexivity.
Qed.

Lemma int16_nonzero (d : Z) : 1 <= d <= 65535 -> Np.int16 d <> 0.
Proof.
  unfold Np.int16. intros H.
  destruct (Z.lt_ge_cases d 32768).
  - rewrite Z.mod_small by lia. lia.
  - replace (d + 32768) with (d - 32768 + 1 * 65536) by lia.
    rewrite Z.mod_add, Z.mod_small by lia. lia.
Qed.

Lemma scale_endpoints (min_elev max_elev : Z) :
  Np.is_int16 min_elev -> Np.is_int16 max_elev -> min_elev < max_elev ->
  scale min_elev max_elev min_elev = 0
  /\ scale min_elev max_elev max_elev = 255.
Proof.
  unfold Np.is_int16. intros Hn Hx Hlt. unfold scale.
  assert (NZ : Np.int16 (max_elev - min_elev) <> 0)
    by (apply int16_nonzero; lia).
  rewrite Z.sub_diag. change (Np.int16 0) with 0. split.
  - apply quantize_zero_int16; [apply int16_range | exact NZ].
  - apply quantize_self; [apply int16_range | exact NZ].
Qed.

(** X15: on every grid of 16-bit samples whose lowest and highest valid
    samples differ, the lowest gets pixel 0 and the highest pixel 255,
    also when the range is too wide for the [int16] subtractions. *)
Theorem dem_to_heightmap_endpoints (nodata : Z) (elevation : list (list Z))
  (min_elev max_elev : Z) :
  Forall (Forall Np.is_int16) elevation ->
  Np.amin (Np.getmask elevation (Np.ne elevation nodata)) = Some min_elev ->
  Np.amax (Np.getmask elevation (Np.ne elevation nodata)) = Some max_elev ->
  min_elev < max_elev ->
  exists f : Z -> Z,
    dem_to_heightmap nodata elevation = inr (map (map f) elevation)
    /\ f min_elev = 0 /\ f max_elev = 255.
Proof.
  intros Hty Emn Emx Hlt.
  destruct (amin_spec _ _ Emn) as [Imn _]. destruct (amax_spec _ _ Emx) as [Imx _].
  apply valid_in in Imn, Imx. destruct Imn as [Imn Nmn], Imx as [Imx Nmx].
  assert (T : forall s, In s (List.concat elevation) -> Np.is_int16 s).
  { intros s Hs. apply in_concat in Hs. destruct Hs as (row & Hrow & Hs).
    rewrite Forall_forall in Hty. specialize (Hty row Hrow).
    rewrite Forall_forall in Hty. apply Hty, Hs. }
  destruct (scale_endpoints min_elev max_elev (T _ Imn) (T _ Imx) Hlt)
    as [S0 S1].
  exists (fun s => if s =? nodata then 0 else scale min_elev max_elev s).
  split; [ | split].
  - rewrite dem_to_heightmap_pointwise, Emn, Emx. reflexivity.
  - apply Z.eqb_neq in Nmn. rewrite Nmn. exact S0.
  - apply Z.eqb_neq in Nmx. rewrite Nmx. exact S1.
Qed.

Lemma dem_to_heightmap_endpoints_witness :
  exists f : Z -> Z,
    dem_to_heightmap (-32768) [[-20000; -32768; 19900; 20000]]
    = inr (map (map f) [[-20000; -32768; 19900; 20000]])
    /\ f (-20000) = 0 /\ f 20000 = 255.
Proof.
  apply (dem_to_heightmap_endpoints (-32768)
           [[-20000; -32768; 19900; 20000]] (-20000) 20000).
  - repeat constructor; unfold Np.is_int16; lia.
  - reflexivity.
  - reflexivity.
  - lia.
Defined.

Lemma amin_same (l1 l2 : list Z) :
  (forall x, In x l1 <-> In x l2) -> Np.amin l1 = Np.amin l2.
Proof.
  intros H.
  destruct (Np.amin l1) as [m1|] eqn:E1, (Np.amin l2) as [m2|] eqn:E2.
  - destruct (amin_spec _ _ E1) as [I1 L1], (amin_spec _ _ E2) as [I2 L2].
    f_equal. apply Z.le_antisymm; [apply L1, H, I2 | apply L2, H, I1].
  - destruct (amin_spec _ _ E1) as [I1 _]. apply H in I1.
    destruct l2; [destruct I1 | discriminate E2].
  - destruct (amin_spec _ _ E2) as [I2 _]. apply H in I2.
    destruct l1; [destruct I2 | discriminate E1].
  - reflexivity.
Qed.

Lemma amax_same (l1 l2 : list Z) :
  (forall x, In x l1 <-> In x l2) -> Np.amax l1 = Np.amax l2.
Proof.
  intros H.
  destruct (Np.amax l1) as [m1|] eqn:E1, (Np.amax l2) as [m2|] eqn:E2.
  - destruct (amax_spec _ _ E1) as [I1 L1], (amax_spec _ _ E2) as [I2 L2].
    f_equal. apply Z.le_antisymm; [apply L2, H, I1 | apply L1, H, I2].
  - destruct (amax_spec _ _ E1) as [I1 _]. apply H in I1.
    destruct l2; [destruct I1 | discriminate E2].
  - destruct (amax_spec _ _ E2) as [I2 _]. apply H in I2.
    destruct l1; [destruct I2 | discriminate E1].
  - reflexivity.
Qed.

Lemma valid_rev (a : list (list Z)) (v s : Z) :
  In s (Np.getmask (rev a) (Np.ne (rev a) v))
  <-> In s (Np.getmask a (Np.ne a v)).
Proof.
  rewrite !valid_in, !in_concat.
  split; intros [(row & Hrow & Hs) N]; (split; [ | exact N]);
    exists row; (split; [ | exact Hs]).
  - apply in_rev. exact Hrow.
  - apply in_rev in Hrow. exact Hrow.
Qed.

(** The minimum and the maximum do not depend on the order of the rows,
    so the normalization of a grid upside down is the normalization
    upside down. *)
Lemma heightmap_of_rev (nodata : Z) (a : list (list Z)) :
  dem_to_heightmap nodata (rev a)
  = hm <- dem_to_heightmap nodata a ;; ret (rev hm).
Proof.
  rewrite !dem_to_heightmap_pointwise.
  rewrite (amin_same _ _ (valid_rev a nodata)).
  rewrite (amax_same _ _ (valid_rev a nodata)).
  destruct (Np.amin _) as [mn|]; [ | reflexivity].
  destruct (Np.amax _) as [mx|]; [ | reflexivity].
  cbn [bind ret]. rewrite map_rev. reflexivity.
Qed.

(** X18: normalization commutes with the vertical flip of the decoder:
    the heightmap of a flipped grid is the flipped heightmap of the grid,
    with the same pixel values, and the one fails when the other does. *)
Theorem dem_to_heightmap_flipud (nodata : Z) (elevation : list (list Z)) :
  dem_to_heightmap nodata (Np.flipud elevation)
  = hm <- dem_to_heightmap nodata elevation ;; ret (Np.flipud hm).
Proof. apply heightmap_of_rev. Qed.

(** X19: the two scripts in a row: the heightmap of a converted tile is
    the heightmap of the file's rows in file order (south to north),
    turned north-up: the flip moves the pixels and does not change them. *)
Theorem heightmap_of_tile (nr nc : nat) (id : string) (file : list byte)
  (g : GeoTIFF) :
  hgt_to_geotiff_dims nr nc id file = inr g ->
  dem_to_heightmap (nodata g) (band1 g)
  = hm <- dem_to_heightmap (-32768)
            (Np.rows_of nr nc (Np.fromfile_be_i2 file)) ;;
    ret (rev hm).
Proof.
  intros H. apply hgt_to_geotiff_dims_inr in H.
  destruct H as (b & R & -> & C). cbn [nodata band1].
  apply heightmap_of_rev.
Qed.

Lemma heightmap_of_tile_witness :
  dem_to_heightmap (-32768) [[200; -32768]; [0; 100]]
  = hm <- dem_to_heightmap (-32768) [[0; 100]; [200; -32768]] ;;
    ret (rev hm).
Proof.
  apply (heightmap_of_tile 2 2 "S27E152"
           [x00; x00; x00; x64; x00; xc8; x80; x00]
           (mkGeoTIFF 2 2
              (from_origin 152 (-26)
                 (F64.div (F64.of_Z 1) (F64.of_Z 2))
                 (F64.div (F64.of_Z 1) (F64.of_Z 2)))
              (-32768) [[200; -32768]; [0; 100]])).
  reflexivity.
Defined.

Lemma dem_to_heightmap_narrow_range_witness :
  dem_to_heightmap (-32768) [[-32768; 0; 100; 200]]
  = inr (map (map (fun s => if s =? -32768 then 0 else floor_scale 0 200 s))
           [[-32768; 0; 100; 200]]).
Proof.
  apply (dem_to_heightmap_narrow_range (-32768) [[-32768; 0; 100; 200]] 0 200);
    (reflexivity || lia).
Defined.

Lemma scale_monotone_narrow_range_witness :
  scale 0 200 100 <= scale 0 200 200.
Proof.
  apply (scale_monotone_narrow_range 0 200 100 200); lia.
Defined.
